(** * Provider routing and streaming failover

    A shallow embedding of the routing core of the gateway:
    [app/core/providers.py], [app/core/config_loader.py],
    [app/core/router.py] and the mock provider of [tests/test_router.py].

    Conventions of the embedding.
    - A Python [str] is a [string]; every character stands for one code
      point below 256.
    - The two integer attributes of the router ([failure_count] and
      [current_index]) start at 0 and are only ever incremented, reset to 0
      or reduced modulo the registry length, so they are natural numbers.
    - A provider object is referred to by its position in the registry
      list: the object returned by [get_provider] is the one stored in the
      list, and mutating it mutates the registry.
    - An asynchronous generator that is consumed to its end is the list of
      the values it yielded together with the way it ended (normal return
      or a raised exception).
    - One request is served at a time; logging is left out.
    - What the code receives from outside (the configuration file, the
      local completion mechanism, the HTTP endpoint, [json.loads]) is a
      parameter of the functions that use it. *)

From Stdlib Require Import Ascii String Permutation DecimalString.
From stdpp Require Import base option list strings gmap.



(** ** Python values and exceptions *)

Module Py.

(** A raised exception: its class name and [str(e)]. *)
Record exn := Exn { exn_class : string; exn_str : string }.

#[global] Instance exn_eq_dec : EqDecision exn.
Proof. solve_decision. Defined.

(** [raise Exception(msg)] *)
Definition Exception (msg : string) : exn := Exn "Exception" msg.

(** The values [json.loads] produces.  Numbers are the integers; an object
    is the list of its members in document order, each key once. *)
#[warnings="-register-all"]
Inductive json :=
| JNull
| JBool (b : bool)
| JNum (n : Z)
| JStr (s : string)
| JArr (items : list json)
| JObj (members : list (string * json)).

(** Truth value of a JSON value, as tested by [if content:]. *)
Definition truthy (v : json) : bool :=
  match v with
  | JNull => false
  | JBool b => b
  | JNum n => negb (n =? 0)%Z
  | JStr s => negb (String.eqb s "")
  | JArr items => negb (bool_decide (length items = 0))
  | JObj members => negb (bool_decide (length members = 0))
  end.

(** Name of the Python type of a value, as it appears in error messages. *)
Definition type_name (v : json) : string :=
  match v with
  | JNull => "NoneType"
  | JBool _ => "bool"
  | JNum _ => "int"
  | JStr _ => "str"
  | JArr _ => "list"
  | JObj _ => "dict"
  end.

(** Lookup in the members of a dict. *)
Fixpoint assoc (key : string) (members : list (string * json)) : option json :=
  match members with
  | [] => None
  | (k, v) :: rest => if String.eqb k key then Some v else assoc key rest
  end.

(** [v.get(key, dflt)]: only a dict has the method. *)
Definition get (v : json) (key : string) (dflt : json) : exn + json :=
  match v with
  | JObj members => inr (default dflt (assoc key members))
  | _ => inl (Exn "AttributeError"
                  ("'" +:+ type_name v +:+ "' object has no attribute 'get'"))
  end.

(** [v[0]] *)
Definition item0 (v : json) : exn + json :=
  match v with
  | JArr (x :: _) => inr x
  | JArr [] => inl (Exn "IndexError" "list index out of range")
  | JStr (String c _) => inr (JStr (String c ""))
  | JStr "" => inl (Exn "IndexError" "string index out of range")
  | JObj _ => inl (Exn "KeyError" "0")
  | _ => inl (Exn "TypeError"
                  ("'" +:+ type_name v +:+ "' object is not subscriptable"))
  end.

(** *** Strings *)

(** [s[n:]] *)
Fixpoint slice_from (n : nat) (s : string) : string :=
  match n, s with
  | 0, _ => s
  | S k, String _ rest => slice_from k rest
  | S _, "" => ""
  end.

(** [c.isspace()] on the code points below 256. *)
Definition isspace (c : ascii) : bool :=
  let n := nat_of_ascii c in
  bool_decide (9 ≤ n ≤ 13 ∨ 28 ≤ n ≤ 32 ∨ n = 133 ∨ n = 160)%nat.

Fixpoint lstrip (s : string) : string :=
  match s with
  | String c rest => if isspace c then lstrip rest else s
  | "" => ""
  end.

(** [s.strip()] *)
Definition strip (s : string) : string :=
  String.rev (lstrip (String.rev (lstrip s))).

Fixpoint lstrip_char (x : ascii) (s : string) : string :=
  match s with
  | String c rest => if Ascii.eqb c x then lstrip_char x rest else s
  | "" => ""
  end.

(** [s.rstrip(x)] for a one-character [x] *)
Definition rstrip_char (x : ascii) (s : string) : string :=
  String.rev (lstrip_char x (String.rev s)).

(** [s.startswith(p)] *)
Definition startswith (s p : string) : bool := String.prefix p s.

(** [sep.join(parts)] *)
Fixpoint join (sep : string) (parts : list string) : string :=
  match parts with
  | [] => ""
  | [p] => p
  | p :: rest => p +:+ sep +:+ join sep rest
  end.

Fixpoint contains_char (x : ascii) (s : string) : bool :=
  match s with
  | "" => false
  | String c rest => Ascii.eqb c x || contains_char x rest
  end.

Definition hex_digit (n : nat) : ascii :=
  ascii_of_nat (if bool_decide (n < 10)%nat then 48 + n else 87 + n).

(** [repr] of one character inside the quotes [quote]. *)
Definition repr_char (quote c : ascii) : string :=
  let n := nat_of_ascii c in
  if Ascii.eqb c quote || Ascii.eqb c "\" then String "\" (String c "")
  else if bool_decide (n = 9) then "\t"
  else if bool_decide (n = 10) then "\n"
  else if bool_decide (n = 13) then "\r"
  else if bool_decide (n < 32 ∨ 127 ≤ n ≤ 160 ∨ n = 173)%nat
       then String "\" (String "x" (String (hex_digit (n / 16))
                                   (String (hex_digit (n mod 16)) "")))
  else String c "".

Fixpoint repr_chars (quote : ascii) (s : string) : string :=
  match s with
  | "" => ""
  | String c rest => repr_char quote c +:+ repr_chars quote rest
  end.

(** [repr(s)] for a string *)
Definition repr_str (s : string) : string :=
  let dquote : ascii := ascii_of_nat 34 in
  let quote : ascii :=
    if contains_char "'" s && negb (contains_char dquote s) then dquote
    else "'"%char in
  String quote (repr_chars quote s) +:+ String quote "".

(** [repr(l)] for a list of strings, which is also [str(l)] and the way an
    f-string formats it. *)
Definition repr_list (l : list string) : string :=
  "[" +:+ join ", " (repr_str <$> l) +:+ "]".

End Py.

Import Py.

(** The error monad of the faults of the Python primitives: [inl e] is a
    raised exception. *)
#[global] Instance exn_bind : MBind (sum exn) := λ A B k m,
  match m with
  | inl e => inl e
  | inr a => k a
  end.

(** ** Providers ([app/core/providers.py]) *)

(** A chat message, a [Dict[str, str]]. *)
Abbreviation message := (gmap string string).

(** A provider descriptor of the configuration: the dict restricted to the
    keys the code reads, [None] standing for an absent key. *)
Record provider_cfg := {
  cfg_type : option string;
  cfg_name : option string;
  cfg_models : option (list string);
  cfg_base_url : option string;
  cfg_api_key : option string
}.

(** The empty dict [{}]. *)
Definition empty_cfg : provider_cfg :=
  {| cfg_type := None; cfg_name := None; cfg_models := None;
     cfg_base_url := None; cfg_api_key := None |}.

(** The subclass of a provider object with the attributes the subclass
    adds. *)
Inductive provider_kind :=
| G4F
| OpenAI (base_url api_key : string) (headers : gmap string string)
| Mock (should_fail : bool) (call_count : nat).

(** [BaseProvider]: the attributes set by [BaseProvider.__init__]. *)
Record BaseProvider := {
  name : string;
  models : list string;
  config : provider_cfg;
  is_active : bool;
  failure_count : nat;
  kind : provider_kind
}.

Definition BaseProvider_init (name : string) (models : list string)
    (config : provider_cfg) (kind : provider_kind) : BaseProvider :=
  {| name := name; models := models; config := config;
     is_active := true; failure_count := 0; kind := kind |}.

Definition set_failure_count (n : nat) (p : BaseProvider) : BaseProvider :=
  {| name := name p; models := models p; config := config p;
     is_active := is_active p; failure_count := n; kind := kind p |}.

Definition set_kind (k : provider_kind) (p : BaseProvider) : BaseProvider :=
  {| name := name p; models := models p; config := config p;
     is_active := is_active p; failure_count := failure_count p; kind := k |}.

(** What a generator did when consumed to its end: the values it yielded,
    then a normal return ([fault = None]) or a raised exception.  A yielded
    value is a Python value of JSON shape; a text fragment is a [JStr]. *)
Record stream := { chunks : list json; fault : option exn }.

Definition finished : stream := {| chunks := []; fault := None |}.
Definition raising (e : exn) : stream := {| chunks := []; fault := Some e |}.
Definition yield_then (c : json) (s : stream) : stream :=
  {| chunks := c :: chunks s; fault := fault s |}.

(** [try: body / except Exception as e: raise handler(e)] around a generator
    body: what was yielded before the exception stays yielded. *)
Definition try_except (body : stream) (handler : exn → exn) : stream :=
  {| chunks := chunks body; fault := handler <$> fault body |}.

Module G4FProvider.

(** An object the local mechanism produces, seen through the two operations
    the provider applies to it: [bool(chunk)], tested by [if chunk:], and
    [str(chunk)]. *)
Record chunk := { chunk_bool : bool; chunk_str : string }.

(** A chunk that is a string: true when it is not empty, and its own
    [str]. *)
Definition text (s : string) : chunk :=
  {| chunk_bool := negb (String.eqb s ""); chunk_str := s |}.

(** What [g4f.ChatCompletion.create(model, messages, stream=True)] does when
    it is iterated: the chunks it produces and the exception that ends the
    iteration, if one does (with no chunk before it when [create] itself
    raises). *)
Record g4f_run := { g4f_chunks : list chunk; g4f_fault : option exn }.

Definition new (name : string) (models : list string) (cfg : provider_cfg)
    : BaseProvider :=
  BaseProvider_init name models cfg G4F.

(** The loop over the response: a chunk that is false is skipped, every
    other one is yielded as [str(chunk)]. *)
Fixpoint relay (cs : list chunk) (end_fault : option exn) : stream :=
  match cs with
  | [] => {| chunks := []; fault := end_fault |}
  | chunk :: rest =>
      if chunk_bool chunk
      then yield_then (JStr (chunk_str chunk)) (relay rest end_fault)
      else relay rest end_fault
  end.

(** [G4FProvider.stream_chat]: the handler logs the exception and raises
    the same object again ([raise e]). *)
Definition stream_chat (run : g4f_run) : stream :=
  try_except (relay (g4f_chunks run) (g4f_fault run)) (λ e, e).

End G4FProvider.

Module OpenAIProvider.

(** The request body. *)
Record payload := {
  p_model : string;
  p_messages : list message;
  p_stream : bool
}.

(** The streamed response: its status, the exception that
    [await response.read()] raises, the lines [aiter_lines] delivers and the
    exception that interrupts them, if one does.  [read] is a synchronous
    method of an httpx response, so the expression never gives a value: on
    the response of an [AsyncClient] the method itself raises (in httpx,
    [sync_on_async] below), and a value it returned would not be
    awaitable. *)
Record http_response := {
  status_code : nat;
  read_fault : exn;
  lines : list string;
  lines_fault : option exn
}.

(** What [read] raises in httpx when the body is an asynchronous stream. *)
Definition sync_on_async : exn :=
  Exn "RuntimeError" "Attempted to call a sync iterator on an async stream.".

(** Opening the stream either raises or gives a response. *)
Inductive http_outcome :=
| ConnectFault (e : exn)
| Response (r : http_response).

Definition new (name : string) (models : list string) (cfg : provider_cfg)
    : BaseProvider :=
  let base_url := default "https://api.openai.com/v1" (cfg_base_url cfg) in
  let api_key := default "" (cfg_api_key cfg) in
  BaseProvider_init name models cfg
    (OpenAI base_url api_key
       (<["Authorization" := "Bearer " +:+ api_key]>
          (<["Content-Type" := "application/json"]> ∅))).

Section WithJson.

(** [json.loads]; [None] when it raises [JSONDecodeError]. *)
Variable json_loads : string → option json.

(** The body of the inner [try]: [inr None] when nothing is yielded for the
    event, [inl e] when an exception other than [JSONDecodeError] leaves
    it. *)
Definition parse_event (data_str : string) : exn + option json :=
  match json_loads data_str with
  | None => inr None
  | Some data =>
      choices ← get data "choices" (JArr [JObj []]);
      first ← item0 choices;
      delta ← get first "delta" (JObj []);
      content ← get delta "content" (JStr "");
      inr (if truthy content then Some content else None)
  end.

(** The loop over [response.aiter_lines()]. *)
Fixpoint read_lines (ls : list string) (end_fault : option exn) : stream :=
  match ls with
  | [] => {| chunks := []; fault := end_fault |}
  | line :: rest =>
      if startswith line "data: " then
        let data_str := slice_from 6 line in
        if String.eqb (strip data_str) "[DONE]" then finished
        else match parse_event data_str with
             | inl e => raising e
             | inr (Some content) =>
                 yield_then content (read_lines rest end_fault)
             | inr None => read_lines rest end_fault
             end
      else read_lines rest end_fault
  end.

(** [OpenAIProvider.stream_chat], given what the POST to [url] does.  On a
    status other than 200 the exception of [await response.read()] leaves
    the branch before the [raise] of the next line is reached.  The outer
    handler logs the exception and raises it again. *)
Definition stream_chat
    (http_stream : string → gmap string string → payload → http_outcome)
    (self : BaseProvider) (base_url : string) (headers : gmap string string)
    (model : string) (messages : list message) : stream :=
  let url := rstrip_char "/" base_url +:+ "/chat/completions" in
  let payload :=
    {| p_model := model; p_messages := messages; p_stream := true |} in
  try_except
    match http_stream url headers payload with
    | ConnectFault e => raising e
    | Response response =>
        if negb (status_code response =? 200)%nat
        then raising (read_fault response)
        else read_lines (lines response) (lines_fault response)
    end
    (λ e, e).

End WithJson.

End OpenAIProvider.

(** The mock provider of [tests/test_router.py]. *)
Module MockProvider.

Definition new (name : string) (should_fail : bool) : BaseProvider :=
  BaseProvider_init name ["*"] empty_cfg (Mock should_fail 0).

(** [MockProvider.stream_chat]: the call is counted, then the generator
    raises or yields its single fragment. *)
Definition stream_chat (self : BaseProvider) (should_fail : bool)
    (call_count : nat) : stream * BaseProvider :=
  let self' := set_kind (Mock should_fail (call_count + 1)) self in
  if should_fail then (raising (Exception "Mock Fail"), self')
  else (yield_then (JStr "Mock Response") finished, self').

End MockProvider.

(** ** Configuration ([app/core/config_loader.py]) *)

Module ConfigLoader.

(** The descriptor appended when nothing is configured. *)
Definition g4f_default : provider_cfg :=
  {| cfg_type := Some "g4f"; cfg_name := Some "g4f-default";
     cfg_models := Some ["gpt-4"; "gpt-3.5-turbo"; "*"];
     cfg_base_url := None; cfg_api_key := None |}.

(** [ConfigLoader.load_providers].  [file_providers] is the list under the
    key [providers] of the YAML document, [None] when the file is missing,
    cannot be read or has no such entry. *)
Definition load_providers (file_providers : option (list provider_cfg))
    : list provider_cfg :=
  let providers := [] ++ default [] file_providers in
  if bool_decide (providers = [])
  then providers ++ [g4f_default]
  else providers.

End ConfigLoader.

(** ** The router ([app/core/router.py]) *)

Record ProviderRouter := {
  providers : list BaseProvider;
  current_index : nat
}.

Definition set_providers (ps : list BaseProvider) (self : ProviderRouter)
    : ProviderRouter :=
  {| providers := ps; current_index := current_index self |}.

Definition set_current_index (i : nat) (self : ProviderRouter)
    : ProviderRouter :=
  {| providers := providers self; current_index := i |}.

(** One round of the loop of [_load_providers]. *)
Definition load_one (acc : list BaseProvider) (cfg : provider_cfg)
    : list BaseProvider :=
  let ptype := default "g4f" (cfg_type cfg) in
  let name := default "unnamed" (cfg_name cfg) in
  let models := default [] (cfg_models cfg) in
  if String.eqb ptype "g4f" then acc ++ [G4FProvider.new name models cfg]
  else if String.eqb ptype "openai"
       then acc ++ [OpenAIProvider.new name models cfg]
       else acc.

(** [ProviderRouter._load_providers] *)
Definition _load_providers (file_providers : option (list provider_cfg))
    (self_providers : list BaseProvider) : list BaseProvider :=
  let configs := ConfigLoader.load_providers file_providers in
  foldl load_one self_providers configs.

(** [ProviderRouter.__init__] *)
Definition ProviderRouter_init (file_providers : option (list provider_cfg))
    : ProviderRouter :=
  {| providers := _load_providers file_providers []; current_index := 0 |}.

(** The two tests of [get_provider] on the provider under the cursor. *)
Definition accepts (model : string) (provider : BaseProvider) : bool :=
  bool_decide (failure_count provider < 3) &&
  (bool_decide ("*" ∈ models provider)
   || bool_decide (model ∈ models provider)).

(** The loop of [get_provider] with [rounds] rounds left.  The provider
    found is given with its position in the registry.  On a non-empty
    registry the new cursor is below the length, so the subscript never
    fails; [get_provider] does not enter the loop on an empty one. *)
Fixpoint get_provider_loop (rounds : nat) (model : string)
    (self : ProviderRouter) : option (nat * BaseProvider) * ProviderRouter :=
  match rounds with
  | 0 => (None, self)
  | S rounds' =>
      let self' :=
        set_current_index
          ((current_index self + 1) mod length (providers self)) self in
      match providers self' !! current_index self' with
      | Some provider =>
          if accepts model provider
          then (Some (current_index self', provider), self')
          else get_provider_loop rounds' model self'
      | None => (None, self')
      end
  end.

(** [ProviderRouter.get_provider] *)
Definition get_provider (model : string) (self : ProviderRouter)
    : option (nat * BaseProvider) * ProviderRouter :=
  if bool_decide (providers self = []) then (None, self)
  else get_provider_loop (length (providers self)) model self.

(** [report_failure] and [report_success] on the provider at position [i]. *)
Definition report_failure (i : nat) (self : ProviderRouter) : ProviderRouter :=
  set_providers
    (alter (λ p, set_failure_count (failure_count p + 1) p) i (providers self))
    self.

Definition report_success (i : nat) (self : ProviderRouter) : ProviderRouter :=
  set_providers (alter (set_failure_count 0) i (providers self)) self.

(** What the outside world answers to the requests of one attempt: the run
    of the local completion mechanism and the outcome of the HTTP POST. *)
Record externals := {
  g4f_create : string → list message → G4FProvider.g4f_run;
  http_stream : string → gmap string string → OpenAIProvider.payload
                → OpenAIProvider.http_outcome
}.

(** The errors [stream_chat] raises itself.  Both are plain [Exception]s in
    the code; they are told apart by their messages. *)
Definition NoProviderAvailable : exn :=
  Exception "No healthy providers available for this model.".

Definition AllProvidersFailed (attempt_errors : list string) : exn :=
  Exception ("All retries failed. Errors: " +:+ repr_list attempt_errors).

(** The two things that happen to a provider during a call: it delivers a
    fragment (a success), or an attempt on it raises (a failure).  The
    provider is named by its position in the registry. *)
Inductive health_event :=
| Success (i : nat)
| Failure (i : nat).

(** What a call of [ProviderRouter.stream_chat] did when its generator was
    consumed to its end: the fragments yielded, the exception raised (if
    any), the router afterwards, the positions of the providers whose
    [stream_chat] was called, in the order of the calls, and what happened
    to the providers, in the order in which it happened: one success for
    each fragment the loop of line 76 received, one failure for each
    exception the handler of line 81 caught. *)
Record chat := {
  yielded : list json;
  raised : option exn;
  after : ProviderRouter;
  calls : list nat;
  events : list health_event
}.

Section Streaming.

Variable json_loads : string → option json.

(** The outside world during the attempt of each number. *)
Variable world : nat → externals.

(** [provider.stream_chat(model, messages)], dispatched on the class of the
    provider.  The second component is the provider object afterwards. *)
Definition provider_stream_chat (attempt : nat) (provider : BaseProvider)
    (model : string) (messages : list message) : stream * BaseProvider :=
  match kind provider with
  | G4F =>
      (G4FProvider.stream_chat (g4f_create (world attempt) model messages),
       provider)
  | OpenAI base_url api_key headers =>
      (OpenAIProvider.stream_chat json_loads (http_stream (world attempt))
         provider base_url headers model messages,
       provider)
  | Mock should_fail call_count =>
      MockProvider.stream_chat provider should_fail call_count
  end.

(** The loop [for attempt in range(retries)] with [todo] attempts left.
    Every fault of a provider is an [Exception], so the handler catches
    it. *)
Fixpoint stream_chat_loop (todo attempt : nat) (attempt_errors : list string)
    (model : string) (messages : list message) (self : ProviderRouter)
    : chat :=
  match todo with
  | 0 =>
      {| yielded := []; raised := Some (AllProvidersFailed attempt_errors);
         after := self; calls := []; events := [] |}
  | S todo' =>
      match get_provider model self with
      | (None, self1) =>
          {| yielded := []; raised := Some NoProviderAvailable;
             after := self1; calls := []; events := [] |}
      | (Some (i, provider), self1) =>
          let '(s, provider') :=
            provider_stream_chat attempt provider model messages in
          let self2 :=
            foldl (λ r _, report_success i r)
              (set_providers (<[i := provider']> (providers self1)) self1)
              (chunks s) in
          let successes := (λ _, Success i) <$> chunks s in
          match fault s with
          | None =>
              {| yielded := chunks s; raised := None;
                 after := self2; calls := [i]; events := successes |}
          | Some e =>
              let self3 := report_failure i self2 in
              let rest :=
                stream_chat_loop todo' (S attempt)
                  (attempt_errors ++ [name provider +:+ ": " +:+ exn_str e])
                  model messages self3 in
              {| yielded := chunks s ++ yielded rest; raised := raised rest;
                 after := after rest; calls := i :: calls rest;
                 events := successes ++ Failure i :: events rest |}
          end
      end
  end.

(** [ProviderRouter.stream_chat] *)
Definition stream_chat (model : string) (messages : list message)
    (self : ProviderRouter) : chat :=
  stream_chat_loop 3 0 [] model messages self.

End Streaming.

(** The failure counters of the registry, in registry order. *)
Definition counters (self : ProviderRouter) : list nat :=
  failure_count <$> providers self.

(** What an event does to the counters, as the specification has it: a
    success puts the counter of its provider to 0, a failure adds one to
    it, and the other counters stay as they are. *)
Definition apply_event (cs : list nat) (ev : health_event) : list nat :=
  match ev with
  | Success i => <[i := 0]> cs
  | Failure i => alter (λ c, c + 1) i cs
  end.

(** The providers of the successes and of the failures of a list of
    events, in order. *)
Definition successes (evs : list health_event) : list nat :=
  omap (λ ev, match ev with Success i => Some i | Failure _ => None end) evs.

Definition failures (evs : list health_event) : list nat :=
  omap (λ ev, match ev with Failure i => Some i | Success _ => None end) evs.

(** Consecutive calls of [get_provider], one for each requested model. *)
Fixpoint selects (requested : list string) (self : ProviderRouter)
    : list (option (nat * BaseProvider)) * ProviderRouter :=
  match requested with
  | [] => ([], self)
  | model :: rest =>
      let '(found, self1) := get_provider model self in
      let '(founds, self2) := selects rest self1 in
      (found :: founds, self2)
  end.

(** ** The scenarios of [tests/test_router.py] *)

(** [test_router_fallback]: a failing and a working mock, the cursor on the
    working one so that the failing one is tried first. *)
Definition two_mocks : ProviderRouter :=
  {| providers := [MockProvider.new "bad" true; MockProvider.new "good" false];
     current_index := 1 |}.

(** [test_router_all_fail]: two failing mocks put in a router whose cursor
    has a given value ([__init__] leaves it at 0). *)
Definition two_bad (cursor : nat) : ProviderRouter :=
  {| providers := [MockProvider.new "bad1" true; MockProvider.new "bad2" true];
     current_index := cursor |}.

(** An outside world for the scenarios that use mocks only: nothing parses
    as JSON, the local mechanism yields nothing, no connection opens. *)
Definition no_json (s : string) : option json := None.

Definition idle_world (attempt : nat) : externals :=
  {| g4f_create := λ _ _,
       {| G4FProvider.g4f_chunks := []; G4FProvider.g4f_fault := None |};
     http_stream := λ _ _ _,
       OpenAIProvider.ConnectFault (Exn "ConnectError" "connection refused") |}.

(** A registry with a provider that has reached the threshold. *)
Definition one_down : ProviderRouter :=
  {| providers := [set_failure_count 3 (MockProvider.new "down" false);
                   MockProvider.new "up" false];
     current_index := 0 |}.

(** ** Sample inputs *)

(** The double quote. *)
Definition dq : string := String (ascii_of_nat 34) "".

(** The event [{"choices":[{"delta":{"content":"Hi"}}]}]. *)
Definition sample_event : string :=
  "{" +:+ dq +:+ "choices" +:+ dq +:+ ":[{" +:+ dq +:+ "delta" +:+ dq
  +:+ ":{" +:+ dq +:+ "content" +:+ dq +:+ ":" +:+ dq +:+ "Hi" +:+ dq
  +:+ "}}]}".

(** A stand-in for [json.loads] that parses [sample_event] and nothing
    else. *)
Definition sample_json_loads (s : string) : option json :=
  if String.eqb s sample_event
  then Some (JObj [("choices",
                    JArr [JObj [("delta", JObj [("content", JStr "Hi")])]])])
  else None.

(** An endpoint that always answers 200 with the given lines. *)
Definition answering (ls : list string)
    : string → gmap string string → OpenAIProvider.payload
      → OpenAIProvider.http_outcome :=
  λ _ _ _, OpenAIProvider.Response
    {| OpenAIProvider.status_code := 200;
       OpenAIProvider.read_fault := OpenAIProvider.sync_on_async;
       OpenAIProvider.lines := ls; OpenAIProvider.lines_fault := None |}.


(** A run of the local mechanism that breaks after one chunk. *)
Definition broken_run : G4FProvider.g4f_run :=
  {| G4FProvider.g4f_chunks := [G4FProvider.text "Hel"];
     G4FProvider.g4f_fault := Some (Exn "RuntimeError" "backend down") |}.

(** A descriptor of a type the router does not know. *)
Definition unknown_cfg : provider_cfg :=
  {| cfg_type := Some "anthropic"; cfg_name := Some "other";
     cfg_models := Some ["*"]; cfg_base_url := None; cfg_api_key := None |}.

(** A registry whose only provider serves one model. *)
Definition gpt_only : ProviderRouter :=
  {| providers := [G4FProvider.new "local" ["gpt-4"] empty_cfg];
     current_index := 0 |}.

(** A registry of one local provider that accepts every model and has
    already failed [count] times. *)
Definition one_local (count : nat) : ProviderRouter :=
  {| providers :=
       [set_failure_count count (G4FProvider.new "local" ["*"] empty_cfg)];
     current_index := 0 |}.

(** Outside worlds in which the local mechanism breaks at every attempt:
    after one chunk, or at once. *)
Definition flaky_world (attempt : nat) : externals :=
  {| g4f_create := λ _ _, broken_run;
     http_stream := λ _ _ _,
       OpenAIProvider.ConnectFault (Exn "ConnectError" "connection refused") |}.


(** A stand-in for [json.loads] given by a table of texts and their
    values. *)
Definition table_json_loads (table : list (string * json)) (s : string)
    : option json :=
  assoc s table.

(** The event [{"choices": []}]. *)
Definition empty_choices_event : string :=
  "{" +:+ dq +:+ "choices" +:+ dq +:+ ": []}".

Definition sample_table : list (string * json) :=
  [("{}", JObj []); (empty_choices_event, JObj [("choices", JArr [])])].

(** ** More Python primitives *)

(** The line feed. *)
Definition nl : string := String (ascii_of_nat 10) "".

(** [c.lower()] on the code points below 256. *)
Definition lower_char (c : ascii) : ascii :=
  let n := nat_of_ascii c in
  if bool_decide (65 ≤ n ≤ 90 ∨ 192 ≤ n ≤ 214 ∨ 216 ≤ n ≤ 222)%nat
  then ascii_of_nat (n + 32) else c.

(** [s.lower()] *)
Fixpoint lower (s : string) : string :=
  match s with
  | "" => ""
  | String c rest => String (lower_char c) (lower rest)
  end.

(** [needle in hay] for two strings *)
Fixpoint contains (needle hay : string) : bool :=
  String.prefix needle hay ||
  match hay with
  | "" => false
  | String _ rest => contains needle rest
  end.

(** [response = ""] followed by [response += chunk] for every chunk: only
    a string can be added to a string. *)
Fixpoint concat_chunks (response : string) (cs : list json) : exn + string :=
  match cs with
  | [] => inr response
  | JStr s :: rest => concat_chunks (response +:+ s) rest
  | v :: _ =>
      inl (Exn "TypeError"
             ("can only concatenate str (not " +:+ dq +:+ type_name v +:+ dq
              +:+ ") to str"))
  end.

(** One character of a string in the output of [json.dumps], which leaves
    the characters from the space to the tilde as they are but for the
    double quote and the backslash. *)
Definition dumps_char (c : ascii) : string :=
  let n := nat_of_ascii c in
  if bool_decide (n = 34) then "\" +:+ dq
  else if bool_decide (n = 92) then "\\"
  else if bool_decide (n = 10) then "\n"
  else if bool_decide (n = 13) then "\r"
  else if bool_decide (n = 9) then "\t"
  else if bool_decide (n = 8) then "\b"
  else if bool_decide (n = 12) then "\f"
  else if bool_decide (32 ≤ n ≤ 126)%nat then String c ""
  else "\u00" +:+ String (hex_digit (n / 16)) (String (hex_digit (n mod 16)) "").

Fixpoint dumps_chars (s : string) : string :=
  match s with
  | "" => ""
  | String c rest => dumps_char c +:+ dumps_chars rest
  end.

(** [json.dumps(s)] for a string *)
Definition dumps_str (s : string) : string := dq +:+ dumps_chars s +:+ dq.

(** [json.dumps(v)] with its default settings. *)
Fixpoint dumps (v : json) : string :=
  match v with
  | JNull => "null"
  | JBool true => "true"
  | JBool false => "false"
  | JNum n => NilEmpty.string_of_int (Z.to_int n)
  | JStr s => dumps_str s
  | JArr items => "[" +:+ join ", " (dumps <$> items) +:+ "]"
  | JObj members =>
      "{" +:+ join ", " ((λ '(k, w), dumps_str k +:+ ": " +:+ dumps w)
                           <$> members) +:+ "}"
  end.

(** ** The completion function ([app/core/llm.py]) *)

Module llm.

(** [llm.get_completion] on the router [_router] of the module.  The flag
    [stream] is tested and not used. *)
Definition get_completion (json_loads : string → option json)
    (world : nat → externals) (model : string) (messages : list message)
    (stream : bool) (_router : ProviderRouter) : chat :=
  stream_chat json_loads world model messages _router.

End llm.

(** ** Intent classification ([app/core/intent.py]) *)

Module intent.

Definition prompt_of (message : string) : string :=
  "Classify the following user message into one of these categories:" +:+ nl
  +:+ "- chat: Casual conversation, coding help, creative writing." +:+ nl
  +:+ "- search: Fact retrieval, weather, quick lookups, shopping." +:+ nl
  +:+ "- deep_research: Complex topics, extensive reports, multi-step investigation, 'find everything about'."
  +:+ nl +:+ nl
  +:+ "Message: " +:+ message +:+ nl +:+ nl
  +:+ "Return ONLY the category name (chat, search, deep_research).".

(** The tests on the cleaned response. *)
Definition category_of (response : string) : string :=
  let cleaned := lower (strip response) in
  if contains "deep_research" cleaned then "deep_research"
  else if contains "search" cleaned then "search"
  else "chat".

(** [classify_intent]: the value it returns.  Whatever exception leaves the
    [try] block, from the completion or from the concatenation, the default
    stays. *)
Definition classify_intent (json_loads : string → option json)
    (world : nat → externals) (message : string) (_router : ProviderRouter)
    : string :=
  let out :=
    llm.get_completion json_loads world "gpt-3.5-turbo"
      [ {[ "role" := "user"; "content" := prompt_of message ]} ] true
      _router in
  match concat_chunks "" (yielded out) with
  | inl _ => "chat"
  | inr response =>
      match raised out with
      | Some _ => "chat"
      | None => category_of response
      end
  end.

End intent.

(** ** Provider status ([app/core/council.py]) *)

Module council.

(** [for p in data]: the values the loop visits, or the fault of a value
    that cannot be iterated.  A dict gives its keys and a string its
    characters. *)
Definition iterate (data : json) : exn + list json :=
  match data with
  | JArr items => inr items
  | JObj members => inr ((λ kv, JStr kv.1) <$> members)
  | JStr s => inr ((λ c, JStr (String c "")) <$> list_ascii_of_string s)
  | _ => inl (Exn "TypeError"
                  ("'" +:+ type_name data +:+ "' object is not iterable"))
  end.

(** [v == s] for a string [s]: only the same string is equal to it. *)
Definition eq_str (v : json) (s : string) : bool :=
  match v with
  | JStr t => String.eqb t s
  | _ => false
  end.

(** The body of the loop of [get_available_providers] over the entries. *)
Fixpoint collect_up (entries : list json) (up_providers : list json)
    : exn + list json :=
  match entries with
  | [] => inr up_providers
  | p :: rest =>
      status ← get p "status" JNull;
      if eq_str status "UP" then
        name ← get p "name" JNull;
        collect_up rest (up_providers ++ [name])
      else collect_up rest up_providers
  end.

Definition fallback : list json := [JStr "G4F Local"; JStr "OpenRouter"].

(** [get_available_providers].  [status_file] is [None] when the status file
    does not exist, [Some None] when opening or parsing it raises, and
    otherwise the value [json.load] returns. *)
Definition get_available_providers (status_file : option (option json))
    : list json :=
  match status_file with
  | None => fallback
  | Some None => fallback
  | Some (Some data) =>
      match entries ← iterate data; collect_up entries [] with
      | inl _ => fallback
      | inr up_providers => up_providers
      end
  end.

(** [_get_default_models] *)
Definition _get_default_models : list (gmap string string) :=
  [ {[ "model" := "gpt-4o"; "role" := "Fallback Expert 1" ]};
    {[ "model" := "claude-3-opus"; "role" := "Fallback Expert 2" ]};
    {[ "model" := "llama-3-70b-instruct"; "role" := "Fallback Expert 3" ]} ].

End council.

(** ** Web search ([app/core/search.py]) *)

Module search.

(** [search_web], given what [DDGS().text(query, max_results)] does when it
    is turned into a list: it raises or gives rows, each a dict of
    strings. *)
Definition search_web
    (ddgs_text : string → nat → exn + list (gmap string string))
    (query : string) (max_results : nat) : list (gmap string string) :=
  match ddgs_text query max_results with
  | inl _ => []
  | inr ddg_results =>
      (λ r : gmap string string,
         <["title" := default "" (r !! "title")]>
           (<["href" := default "" (r !! "href")]>
              (<["body" := default "" (r !! "body")]> ∅)))
        <$> ddg_results
  end.

End search.

(** ** The chat completions endpoint ([app/api/openai_api.py]) *)

Module openai_api.

Record ChatMessage := { role : string; content : string }.

(** The request body; [temperature] and [max_tokens], which the handler does
    not read, are left out. *)
Record ChatCompletionRequest := {
  model : string;
  messages : list ChatMessage;
  stream : bool
}.

Inductive response :=
| JSONResponse (status_code : nat) (body : json)
| StreamingResponse (events : list string) (media_type : string).

(** [m.model_dump()] *)
Definition model_dump (m : ChatMessage) : message :=
  <["role" := role m]> (<["content" := content m]> ∅).

(** The event of one chunk, of the end ([delta] empty, [finish_reason]
    [stop]) and of an error. *)
Definition chunk_data (req_id : string) (created : Z) (model : string)
    (delta finish_reason : json) : json :=
  JObj [("id", JStr req_id); ("object", JStr "chat.completion.chunk");
        ("created", JNum created); ("model", JStr model);
        ("choices",
         JArr [JObj [("index", JNum 0); ("delta", delta);
                     ("finish_reason", finish_reason)]])].

Definition sse (data : json) : string :=
  "data: " +:+ dumps data +:+ nl +:+ nl.

Definition done_event : string := "data: [DONE]" +:+ nl +:+ nl.

Section Endpoint.

Context (json_loads : string → option json) (world : nat → externals).

(** [uuid.uuid4()] as a string and [int(time.time())] *)
Context (uuid4 : string) (now : Z).

(** The objects [event_generator] serialises, in order: one for each chunk
    of the completion, then the closing one, which says [stop] after a
    normal end and carries the text of the exception otherwise. *)
Definition payloads (request : ChatCompletionRequest) (out : chat)
    : list json :=
  let req_id := "chatcmpl-" +:+ uuid4 in
  let created := now in
  ((λ chunk,
      chunk_data req_id created (model request)
        (JObj [("content", chunk)]) JNull) <$> yielded out)
  ++ [match raised out with
      | None =>
          chunk_data req_id created (model request) (JObj []) (JStr "stop")
      | Some e => JObj [("error", JStr (exn_str e))]
      end].

(** [event_generator] consumed to its end: the events and the router
    afterwards. *)
Definition event_generator (request : ChatCompletionRequest)
    (_router : ProviderRouter) : list string * ProviderRouter :=
  let out :=
    llm.get_completion json_loads world (model request)
      (model_dump <$> messages request) true _router in
  ((sse <$> payloads request out) ++ [done_event], after out).

(** [chat_completions] *)
Definition chat_completions (request : ChatCompletionRequest)
    (_router : ProviderRouter) : response * ProviderRouter :=
  if negb (stream request)
  then (JSONResponse 400
          (JObj [("error",
                  JStr "Only streaming is supported in this version")]),
        _router)
  else
    let '(events, router') := event_generator request _router in
    (StreamingResponse events "text/event-stream", router').

End Endpoint.

End openai_api.

(** ** Lines of a response body *)

(** The characters at which [str.splitlines], and with it
    [response.aiter_lines()], ends a line (code points below 256). *)
Definition is_linebreak (c : ascii) : bool :=
  let n := nat_of_ascii c in
  bool_decide (10 ≤ n ≤ 13 ∨ 28 ≤ n ≤ 30 ∨ n = 133)%nat.

(** [(line + s).splitlines()] where [line] has no line break; a carriage
    return takes a line feed that follows it; no empty line is added at the
    end. *)
Fixpoint splitlines_from (line : string) (s : string) : list string :=
  match s with
  | "" => if String.eqb line "" then [] else [line]
  | String c rest =>
      if is_linebreak c then
        line :: splitlines_from ""
                  (if bool_decide (nat_of_ascii c = 13)
                   then match rest with
                        | String c2 rest2 =>
                            if bool_decide (nat_of_ascii c2 = 10)
                            then rest2 else rest
                        | "" => rest
                        end
                   else rest)
      else splitlines_from (line +:+ String c "") rest
  end.

(** [s.splitlines()] *)
Definition splitlines (s : string) : list string := splitlines_from "" s.

(** The lines [aiter_lines] delivers for a body sent as a sequence of
    pieces. *)
Definition lines_of_events (events : list string) : list string :=
  splitlines (foldr String.append "" events).

(** A search that gives one row without a body. *)
Definition sample_ddgs (query : string) (max_results : nat)
    : exn + list (gmap string string) :=
  inr [ <["title" := "Rocq"]> (<["href" := "https://rocq-prover.org"]> ∅) ].

(** A request of the endpoint, streaming or not. *)
Definition sample_request (streaming : bool)
    : openai_api.ChatCompletionRequest :=
  {| openai_api.model := "test-model";
     openai_api.messages :=
       [ {| openai_api.role := "user"; openai_api.content := "hi" |} ];
     openai_api.stream := streaming |}.

(** A stand-in for [json.loads] that reads back what [json.dumps] wrote for
    the values of a list, and nothing else. *)
Definition echo_json_loads (values : list json) (s : string) : option json :=
  assoc s ((λ v, (dumps v, v)) <$> values).

(** The objects the endpoint serialises for the streaming sample request on
    the registry of the fallback test. *)
Definition sample_payloads : list json :=
  openai_api.payloads "0000" 0 (sample_request true)
    (llm.get_completion no_json idle_world "test-model"
       (openai_api.model_dump <$> openai_api.messages (sample_request true))
       true two_mocks).

(** An outside world whose local mechanism produces a chunk that is true
    and whose [str] is empty, and then the text [Hi]; and the objects the
    endpoint serialises for the streaming sample request on a registry of
    one local provider in that world. *)
Definition odd_world (attempt : nat) : externals :=
  {| g4f_create := λ _ _,
       {| G4FProvider.g4f_chunks :=
            [{| G4FProvider.chunk_bool := true;
                G4FProvider.chunk_str := EmptyString |};
             G4FProvider.text "Hi"];
          G4FProvider.g4f_fault := None |};
     http_stream := λ _ _ _,
       OpenAIProvider.ConnectFault (Exn "ConnectError" "connection refused") |}.

Definition odd_payloads : list json :=
  openai_api.payloads "0000" 0 (sample_request true)
    (llm.get_completion no_json odd_world "test-model"
       (openai_api.model_dump <$> openai_api.messages (sample_request true))
       true (one_local 0)).

(** * Properties *)

(** ** The Python primitives on sample inputs *)

Example strip_sentinel : strip "  [DONE] " = "[DONE]".
Proof. reflexivity. Qed.

Example slice_event : slice_from 6 "data: {}" = "{}".
Proof. reflexivity. Qed.

Example startswith_event :
  startswith "data: {}" "data: " = true ∧ startswith "event: x" "data: " = false.
Proof. split; reflexivity. Qed.

Example rstrip_slashes :
  rstrip_char "/" "http://localhost:8080/v1//" = "http://localhost:8080/v1".
Proof. reflexivity. Qed.

Example repr_list_sample :
  repr_list ["bad: Mock Fail"; "it's"] = "['bad: Mock Fail', " +:+ dq +:+ "it's" +:+ dq +:+ "]".
Proof. reflexivity. Qed.

Example item0_default : item0 (JArr [JObj []]) = inr (JObj []).
Proof. reflexivity. Qed.

Example load_default :
  (λ p, (name p, models p, failure_count p)) <$>
    providers (ProviderRouter_init None) =
  [("g4f-default", ["gpt-4"; "gpt-3.5-turbo"; "*"], 0)].
Proof. reflexivity. Qed.

(** ** Selection *)

Lemma accepts_true (model : string) (p : BaseProvider) :
  accepts model p = true ↔
  failure_count p < 3 ∧ (model ∈ models p ∨ "*" ∈ models p).
Proof.
  unfold accepts.
  rewrite andb_true_iff, orb_true_iff, !bool_decide_eq_true. tauto.
Qed.

Lemma accepts_false (model : string) (p : BaseProvider) :
  accepts model p = false ↔
  ¬ (failure_count p < 3 ∧ (model ∈ models p ∨ "*" ∈ models p)).
Proof. rewrite <- accepts_true. destruct (accepts model p); naive_solver. Qed.

Lemma slot_shift (c n j : nat) :
  ((c + 1) mod n + 1 + j) mod n = (c + 1 + S j) mod n.
Proof.
  replace ((c + 1) mod n + 1 + j) with ((c + 1) mod n + (1 + j)) by lia.
  rewrite Nat.Div0.add_mod_idemp_l. f_equal; lia.
Qed.

(** The scan of [get_provider_loop]: it stops at the first accepted slot
    after the cursor, or makes all its rounds. *)
Lemma get_provider_loop_scan (model : string) (ps : list BaseProvider) :
  ps ≠ [] →
  ∀ (k c : nat),
    (∃ j p, j < k ∧ ps !! ((c + 1 + j) mod length ps) = Some p ∧
       accepts model p = true ∧
       (∀ j' q, j' < j → ps !! ((c + 1 + j') mod length ps) = Some q →
                accepts model q = false) ∧
       get_provider_loop k model {| providers := ps; current_index := c |} =
         (Some ((c + 1 + j) mod length ps, p),
          {| providers := ps; current_index := (c + 1 + j) mod length ps |}))
    ∨
    ((∀ j q, j < k → ps !! ((c + 1 + j) mod length ps) = Some q →
             accepts model q = false) ∧
     get_provider_loop k model {| providers := ps; current_index := c |} =
       (None,
        {| providers := ps;
           current_index := match k with
                            | 0 => c
                            | S k' => (c + 1 + k') mod length ps
                            end |})).
Proof.
  intros Hne k. induction k as [|k IH]; intros c.
  - right. split; [intros; lia | reflexivity].
  - assert (Hlen : 0 < length ps) by (destruct ps; [done | simpl; lia]).
    assert (Hlt : (c + 1) mod length ps < length ps)
      by (apply Nat.mod_upper_bound; lia).
    destruct (lookup_lt_is_Some_2 ps _ Hlt) as [p Hp].
    cbn [get_provider_loop]. unfold set_current_index.
    cbn [providers current_index].
    rewrite Hp.
    destruct (accepts model p) eqn:Hacc.
    + left. exists 0, p. rewrite Nat.add_0_r.
      repeat split; [lia | done | done | intros; lia].
    + destruct (IH ((c + 1) mod length ps))
        as [(j & q & Hj & Hq & Hqa & Hbefore & Heq) | [Hnone Heq]].
      * left. exists (S j), q. rewrite slot_shift in Hq, Heq.
        repeat split; [lia | done | done | | done].
        intros [|j'] q' Hj' Hq'.
        -- rewrite Nat.add_0_r in Hq'. congruence.
        -- rewrite <- slot_shift in Hq'. apply (Hbefore j'); [lia | done].
      * right. split.
        -- intros [|j] q Hj Hq.
           ++ rewrite Nat.add_0_r in Hq. congruence.
           ++ rewrite <- slot_shift in Hq. apply (Hnone j); [lia | done].
        -- rewrite Heq. f_equal. f_equal.
           destruct k as [|k']; [by rewrite Nat.add_0_r |].
           apply slot_shift.
Qed.

Lemma get_provider_providers (model : string) (self : ProviderRouter) :
  providers (get_provider model self).2 = providers self.
Proof.
  unfold get_provider. case_bool_decide as Hne; [done |].
  destruct self as [ps c]. simpl in *.
  destruct (get_provider_loop_scan model ps Hne (length ps) c)
    as [(j & p & _ & _ & _ & _ & ->) | [_ ->]]; done.
Qed.

Lemma get_provider_Some (model : string) (self self' : ProviderRouter)
    (i : nat) (p : BaseProvider) :
  get_provider model self = (Some (i, p), self') →
  providers self !! i = Some p ∧ accepts model p = true ∧
  providers self' = providers self.
Proof.
  intros Heq.
  pose proof (get_provider_providers model self) as Hps.
  rewrite Heq in Hps. simpl in Hps.
  unfold get_provider in Heq. case_bool_decide as Hne; [done |].
  destruct self as [ps c]. simpl in *.
  destruct (get_provider_loop_scan model ps Hne (length ps) c)
    as [(j & q & _ & Hq & Hacc & _ & Hres) | [_ Hres]];
    rewrite Hres in Heq; simplify_eq. done.
Qed.

(** Every position of the registry is one of the slots of a full
    rotation. *)
Lemma slot_covers (c n i : nat) :
  i < n → ∃ j, j < n ∧ (c + 1 + j) mod n = i.
Proof.
  intros Hi. exists ((i + n - (c + 1) mod n) mod n).
  assert (Hs : (c + 1) mod n < n) by (apply Nat.mod_upper_bound; lia).
  split; [apply Nat.mod_upper_bound; lia |].
  rewrite Nat.Div0.add_mod_idemp_r, <- Nat.Div0.add_mod_idemp_l.
  replace ((c + 1) mod n + (i + n - (c + 1) mod n)) with (i + 1 * n) by lia.
  rewrite Nat.Div0.mod_add. by apply Nat.mod_small.
Qed.

Lemma slot_inj (a n j j' : nat) :
  j < n → j' < n → (a + j) mod n = (a + j') mod n → j = j'.
Proof.
  intros Hj Hj' Heq.
  pose proof (Nat.div_mod_eq (a + j) n) as E1.
  pose proof (Nat.div_mod_eq (a + j') n) as E2.
  assert (Hb : (a + j) mod n < n) by (apply Nat.mod_upper_bound; lia).
  rewrite <- Heq in E2.
  assert ((a + j) / n = (a + j') / n ∨ (a + j) / n < (a + j') / n
          ∨ (a + j') / n < (a + j) / n) as [E | [E | E]] by lia.
  - rewrite E in E1. lia.
  - nia.
  - nia.
Qed.

Lemma rotation_Permutation (a n : nat) :
  (λ k, (a + k) mod n) <$> seq 0 n ≡ₚ seq 0 n.
Proof.
  destruct (decide (n = 0)) as [-> | Hn]; [done |].
  apply submseteq_length_Permutation.
  - apply NoDup_submseteq.
    + apply NoDup_fmap_2_strong; [| apply NoDup_seq].
      intros j j' Hj Hj' Heq.
      apply elem_of_seq in Hj, Hj'. eapply slot_inj; [| | done]; lia.
    + intros x (k & -> & _)%list_elem_of_fmap.
      apply elem_of_seq. split; [lia |].
      simpl. apply Nat.mod_upper_bound. lia.
  - by rewrite length_fmap.
Qed.

(** C3.  On a non-empty registry [get_provider] scans the slots
    [(current_index + 1 + k) mod length] for [k = 0, 1, ...], at most
    [length] of them, and leaves the cursor on the last slot it scanned.  It
    returns the provider of the first slot that is healthy
    ([failure_count < 3]) and lists the requested model or the wildcard; when
    no provider of the registry is such, it returns [None] after a full
    rotation. *)
Theorem select_contract (model : string) (self : ProviderRouter) :
  providers self ≠ [] →
  let n := length (providers self) in
  let slot := λ k, (current_index self + 1 + k) mod n in
  let eligible := λ p : BaseProvider,
    failure_count p < 3 ∧ (model ∈ models p ∨ "*" ∈ models p) in
  (∃ k p, k < n ∧ providers self !! slot k = Some p ∧ eligible p ∧
     (∀ j q, j < k → providers self !! slot j = Some q → ¬ eligible q) ∧
     get_provider model self =
       (Some (slot k, p), set_current_index (slot k) self))
  ∨
  ((∀ q, q ∈ providers self → ¬ eligible q) ∧
   get_provider model self = (None, set_current_index (slot (n - 1)) self)).
Proof.
  intros Hne n slot eligible. subst n slot eligible.
  destruct self as [ps c]. simpl in *.
  unfold get_provider. rewrite bool_decide_eq_false_2 by done. simpl.
  assert (Hlen : 0 < length ps) by (destruct ps; [done | simpl; lia]).
  destruct (get_provider_loop_scan model ps Hne (length ps) c)
    as [(j & p & Hj & Hp & Hacc & Hbefore & Heq) | [Hnone Heq]].
  - left. exists j, p. apply accepts_true in Hacc.
    repeat split; try done; try tauto.
    intros j' q Hj' Hq. apply accepts_false. by eapply Hbefore.
  - right. split.
    + intros q [i Hq]%list_elem_of_lookup.
      destruct (slot_covers c (length ps) i) as (j & Hj & <-);
        [by eapply lookup_lt_Some |].
      apply accepts_false. by eapply Hnone.
    + rewrite Heq. unfold set_current_index. simpl.
      destruct (length ps) as [|k] eqn:E; [lia |].
      do 3 f_equal. lia.
Qed.

Lemma select_contract_witness :
  providers two_mocks ≠ [] ∧
  ((∃ k p, k < 2 ∧ providers two_mocks !! ((1 + 1 + k) mod 2) = Some p ∧
      (failure_count p < 3 ∧ ("m" ∈ models p ∨ "*" ∈ models p)) ∧
      (∀ j q, j < k → providers two_mocks !! ((1 + 1 + j) mod 2) = Some q →
              ¬ (failure_count q < 3 ∧ ("m" ∈ models q ∨ "*" ∈ models q))) ∧
      get_provider "m" two_mocks =
        (Some ((1 + 1 + k) mod 2, p),
         set_current_index ((1 + 1 + k) mod 2) two_mocks))
   ∨
   ((∀ q, q ∈ providers two_mocks →
          ¬ (failure_count q < 3 ∧ ("m" ∈ models q ∨ "*" ∈ models q))) ∧
    get_provider "m" two_mocks =
      (None, set_current_index ((1 + 1 + (2 - 1)) mod 2) two_mocks))).
Proof.
  split; [done |]. apply (select_contract "m" two_mocks). done.
Defined.

(** ** The scenarios of the tests *)

(** C1.  With the registry [bad, good] of the fallback test and the cursor
    on [good], [stream_chat] calls [bad] first and then [good], yields
    exactly the fragment of [good] and returns normally; afterwards [bad] has
    one failure and [good] none. *)
Theorem failover_scenario (json_loads : string → option json)
    (world : nat → externals) (messages : list message) :
  let out := stream_chat json_loads world "test-model" messages two_mocks in
  yielded out = [JStr "Mock Response"] ∧
  raised out = None ∧
  calls out = [0; 1] ∧
  (∃ bad good, providers (after out) = [bad; good] ∧
     name bad = "bad" ∧ failure_count bad = 1 ∧
     name good = "good" ∧ failure_count good = 0).
Proof.
  simpl. repeat split. eexists _, _. repeat split.
Qed.

(** C5.  On an empty registry [get_provider] returns [None], and
    [stream_chat] raises its no-provider error at once: nothing is yielded,
    no provider is called and the router is left as it was. *)
Theorem empty_registry (json_loads : string → option json)
    (world : nat → externals) (model : string) (messages : list message)
    (cursor : nat) :
  let self := {| providers := []; current_index := cursor |} in
  let out := stream_chat json_loads world model messages self in
  get_provider model self = (None, self) ∧
  raised out = Some NoProviderAvailable ∧
  yielded out = [] ∧
  calls out = [] ∧
  after out = self.
Proof. simpl. repeat split. Qed.

(** The exhaustion scenario as the specification words it (two attempts)
    does not hold in the router of the test, whose cursor is 0. *)
Lemma exhaustion_not_two_attempts :
  ¬ (∃ errors,
       raised (stream_chat no_json idle_world "m" [] (two_bad 0)) =
         Some (AllProvidersFailed errors) ∧
       length errors = 2 ∧
       length (calls (stream_chat no_json idle_world "m" [] (two_bad 0))) = 2).
Proof. intros (errors & _ & _ & Hcalls). vm_compute in Hcalls. lia. Qed.

(** C2, amended.  With the registry [bad1, bad2] of two failing mocks,
    whatever the cursor, [stream_chat] makes three attempts, the number of
    retries, alternating between the two providers from the one after the
    cursor, yields nothing and raises its all-failed error, which carries the
    three causes in the order of the attempts. *)
Theorem exhaustion_scenario (json_loads : string → option json)
    (world : nat → externals) (model : string) (messages : list message)
    (cursor : nat) :
  let out := stream_chat json_loads world model messages (two_bad cursor) in
  let first := (cursor + 1) mod 2 in
  let cause := λ i, (if decide (i = 0) then "bad1" else "bad2") +:+ ": Mock Fail" in
  calls out = [first; 1 - first; first] ∧
  yielded out = [] ∧
  raised out =
    Some (AllProvidersFailed [cause first; cause (1 - first); cause first]) ∧
  counters (after out) = (if decide (first = 0) then [2; 1] else [1; 2]).
Proof.
  intros out first cause. subst out cause.
  assert (Hfirst : first = 0 ∨ first = 1).
  { pose proof (Nat.mod_upper_bound (cursor + 1) 2). lia. }
  unfold stream_chat, two_bad.
  cbn [stream_chat_loop]. unfold get_provider.
  cbn [providers current_index bool_decide decide_rel].
  rewrite bool_decide_eq_false_2 by done.
  cbn [length get_provider_loop]. unfold set_current_index at 1.
  cbn [providers current_index length].
  fold first. destruct Hfirst as [-> | ->]; vm_compute; done.
Qed.

(** ** Rotation *)

(** When the provider right after the cursor is accepted, it is the one
    returned. *)
Lemma get_provider_next (model : string) (ps : list BaseProvider) (c : nat)
    (p : BaseProvider) :
  ps !! ((c + 1) mod length ps) = Some p →
  accepts model p = true →
  get_provider model {| providers := ps; current_index := c |} =
    (Some ((c + 1) mod length ps, p),
     {| providers := ps; current_index := (c + 1) mod length ps |}).
Proof.
  intros Hp Hacc. unfold get_provider. simpl.
  assert (Hne : ps ≠ []) by (intros ->; done).
  rewrite bool_decide_eq_false_2 by done.
  destruct ps as [|p0 ps']; [done |].
  cbn [length get_provider_loop]. unfold set_current_index.
  cbn [providers current_index length]. cbn [length] in Hp.
  by rewrite Hp, Hacc.
Qed.

Lemma selects_rotation (ps : list BaseProvider) :
  ps ≠ [] →
  (∀ p, p ∈ ps → failure_count p < 3 ∧ "*" ∈ models p) →
  ∀ (requested : list string) (c : nat),
    ∃ picks : list (nat * BaseProvider),
      (selects requested {| providers := ps; current_index := c |}).1 =
        Some <$> picks ∧
      picks.*1 =
        (λ k, (c + 1 + k) mod length ps) <$> seq 0 (length requested) ∧
      (∀ i p, (i, p) ∈ picks → ps !! i = Some p).
Proof.
  intros Hne Hall requested.
  assert (Hlen : 0 < length ps) by (destruct ps; [done | simpl; lia]).
  induction requested as [|model rest IH]; intros c.
  - exists []. repeat split. intros i p Hin. by apply elem_of_nil in Hin.
  - assert (Hlt : (c + 1) mod length ps < length ps)
      by (apply Nat.mod_upper_bound; lia).
    destruct (lookup_lt_is_Some_2 ps _ Hlt) as [p Hp].
    assert (Hacc : accepts model p = true).
    { apply accepts_true. destruct (Hall p) as [? ?]; [| by auto].
      by eapply list_elem_of_lookup_2. }
    cbn [selects]. rewrite (get_provider_next model ps c p Hp Hacc).
    destruct (IH ((c + 1) mod length ps)) as (picks & Hsel & Hpos & Hobj).
    destruct (selects rest _) as [founds self2]. simpl in Hsel. subst founds.
    exists (((c + 1) mod length ps, p) :: picks). repeat split.
    + cbn [length seq fmap list_fmap fst]. rewrite Nat.add_0_r. f_equal.
      change (list_fmap _ _ fst picks) with (picks.*1). rewrite Hpos.
      rewrite <- fmap_S_seq, <- list_fmap_compose.
      apply list_fmap_ext. intros _ k _. simpl. apply slot_shift.
    + intros i q [Heq | Hin]%elem_of_cons; [by simplify_eq | by apply Hobj].
Qed.

(** C6.  In a registry of [N >= 1] providers that are all healthy and all
    list the wildcard, [N] consecutive calls of [get_provider] (whatever the
    models asked for) all return a provider; the one returned by call [k]
    (from 0) is the registry object at position
    [(current_index + 1 + k) mod N], and these positions are the positions
    [0 .. N-1], each exactly once. *)
Theorem round_robin_fairness (requested : list string)
    (self : ProviderRouter) :
  let N := length (providers self) in
  1 ≤ N →
  length requested = N →
  (∀ p, p ∈ providers self → failure_count p < 3 ∧ "*" ∈ models p) →
  ∃ picks : list (nat * BaseProvider),
    (selects requested self).1 = Some <$> picks ∧
    picks.*1 = (λ k, (current_index self + 1 + k) mod N) <$> seq 0 N ∧
    (∀ i p, (i, p) ∈ picks → providers self !! i = Some p) ∧
    picks.*1 ≡ₚ seq 0 N.
Proof.
  intros N HN Hreq Hall. subst N. destruct self as [ps c]. simpl in *.
  assert (Hne : ps ≠ []) by (intros ->; simpl in HN; lia).
  destruct (selects_rotation ps Hne Hall requested c)
    as (picks & Hsel & Hpos & Hobj).
  rewrite Hreq in Hpos.
  exists picks. repeat split; [done | done | done |].
  rewrite Hpos. apply (rotation_Permutation (c + 1)).
Qed.

Lemma round_robin_fairness_witness :
  1 ≤ length (providers two_mocks) ∧
  length ["gpt-4"; "llama"] = length (providers two_mocks) ∧
  (∀ p, p ∈ providers two_mocks → failure_count p < 3 ∧ "*" ∈ models p) ∧
  ∃ picks : list (nat * BaseProvider),
    (selects ["gpt-4"; "llama"] two_mocks).1 = Some <$> picks ∧
    picks.*1 = (λ k, (current_index two_mocks + 1 + k)
                       mod length (providers two_mocks))
               <$> seq 0 (length (providers two_mocks)) ∧
    (∀ i p, (i, p) ∈ picks → providers two_mocks !! i = Some p) ∧
    picks.*1 ≡ₚ seq 0 (length (providers two_mocks)).
Proof.
  assert (Hall : ∀ p, p ∈ providers two_mocks →
                      failure_count p < 3 ∧ "*" ∈ models p).
  { intros p Hp. apply list_elem_of_In in Hp. simpl in Hp.
    destruct Hp as [<- | [<- | []]]; simpl; split; try lia; apply list_elem_of_here. }
  split; [simpl; lia |]. split; [reflexivity |]. split; [exact Hall |].
  apply (round_robin_fairness ["gpt-4"; "llama"] two_mocks);
    [simpl; lia | reflexivity | exact Hall].
Defined.

(** ** Failure counters *)

Lemma counters_report_success (i : nat) (self : ProviderRouter) :
  counters (report_success i self) = <[i := 0]> (counters self).
Proof.
  unfold counters, report_success. simpl.
  generalize (providers self). intros ps. revert i.
  induction ps as [|p ps IH]; intros [|i]; simpl; f_equal; try done; apply IH.
Qed.

Lemma counters_report_failure (i : nat) (self : ProviderRouter) :
  counters (report_failure i self) = alter (λ c, c + 1) i (counters self).
Proof.
  unfold counters, report_failure. simpl.
  generalize (providers self). intros ps. revert i.
  induction ps as [|p ps IH]; intros [|i]; simpl; f_equal; try done; apply IH.
Qed.

Lemma counters_set_provider (i : nat) (p p' : BaseProvider)
    (self : ProviderRouter) :
  providers self !! i = Some p →
  failure_count p' = failure_count p →
  counters (set_providers (<[i := p']> (providers self)) self) = counters self.
Proof.
  intros Hp Heq. unfold counters. simpl.
  rewrite list_fmap_insert, Heq. apply list_insert_id.
  by rewrite list_lookup_fmap, Hp.
Qed.

Lemma counters_get_provider (model : string) (self : ProviderRouter) :
  counters (get_provider model self).2 = counters self.
Proof. unfold counters. by rewrite get_provider_providers. Qed.

(** The resets of one attempt: one per chunk, all on the same provider. *)
Lemma counters_chunks (i : nat) (cs : list json) (self : ProviderRouter) :
  counters (foldl (λ r _, report_success i r) self cs) =
  match cs with
  | [] => counters self
  | _ :: _ => <[i := 0]> (counters self)
  end.
Proof.
  revert self. induction cs as [|c cs IH]; intros self; [done |].
  simpl. rewrite IH. destruct cs; rewrite counters_report_success; [done |].
  apply list_insert_insert_eq.
Qed.

Section StreamingFacts.

Context (json_loads : string → option json) (world : nat → externals).

(** A provider's [stream_chat] leaves its name, its models and its failure
    counter alone. *)
Lemma provider_stream_chat_frame (attempt : nat) (p p' : BaseProvider)
    (model : string) (messages : list message) (s : stream) :
  provider_stream_chat json_loads world attempt p model messages = (s, p') →
  failure_count p' = failure_count p ∧ name p' = name p ∧
  models p' = models p.
Proof.
  unfold provider_stream_chat, MockProvider.stream_chat.
  destruct (kind p) as [| | [] n]; intros; by simplify_eq.
Qed.

(** The counters after one attempt on the provider at position [i], before
    the failure (if any) is reported. *)
Lemma counters_attempt (attempt i : nat) (p p' : BaseProvider)
    (model : string) (messages : list message) (s : stream)
    (self : ProviderRouter) :
  providers self !! i = Some p →
  provider_stream_chat json_loads world attempt p model messages = (s, p') →
  counters (foldl (λ r _, report_success i r)
              (set_providers (<[i := p']> (providers self)) self) (chunks s)) =
  match chunks s with
  | [] => counters self
  | _ :: _ => <[i := 0]> (counters self)
  end.
Proof.
  intros Hp Hs. rewrite counters_chunks.
  apply provider_stream_chat_frame in Hs as (Hfc & _ & _).
  by rewrite (counters_set_provider i p p' self Hp Hfc).
Qed.

End StreamingFacts.

Section LoopFacts.

Context (json_loads : string → option json) (world : nat → externals).
Context (model : string) (messages : list message).

Local Abbreviation loop := (stream_chat_loop json_loads world).

Local Ltac loop_step i p self1 Hsel s p' Hs e Hf :=
  cbn [stream_chat_loop];
  destruct (get_provider _ _) as [[[i p]|] self1] eqn:Hsel;
  [ destruct (provider_stream_chat _ _ _ _ _ _) as [s p'] eqn:Hs;
    destruct (fault s) as [e|] eqn:Hf
  | ];
  cbn [yielded raised after calls].

(** What [get_provider] returned is in the registry, healthy, and the
    counters are as before the call. *)
Lemma selected_facts (self self1 : ProviderRouter) (i : nat)
    (p : BaseProvider) :
  get_provider model self = (Some (i, p), self1) →
  providers self1 !! i = Some p ∧ counters self1 = counters self ∧
  counters self !! i = Some (failure_count p) ∧ failure_count p < 3.
Proof.
  intros Hsel. pose proof (counters_get_provider model self) as Hc.
  rewrite Hsel in Hc. simpl in Hc.
  apply get_provider_Some in Hsel as (Hp & Hacc & Hps).
  apply accepts_true in Hacc as [Hlt _].
  repeat split; [by rewrite Hps | done | | done].
  unfold counters. by rewrite list_lookup_fmap, Hp.
Qed.

Lemma replay_successes (i : nat) (cs : list nat) (l : list json) :
  foldl apply_event cs ((λ _, Success i) <$> l) =
  match l with [] => cs | _ :: _ => <[i := 0]> cs end.
Proof.
  destruct l as [|c l]; [done |]. simpl.
  induction l as [|c' l IH]; [done |]. simpl.
  by rewrite list_insert_insert_eq.
Qed.

(** The counters after the loop are those before it with the events of the
    loop applied in order. *)
Lemma loop_replay (todo : nat) :
  ∀ (attempt : nat) (errors : list string) (self : ProviderRouter),
    counters (after (loop todo attempt errors model messages self)) =
    foldl apply_event (counters self)
      (events (loop todo attempt errors model messages self)).
Proof.
  induction todo as [|todo IH]; intros attempt errors self; [done |].
  loop_step i p self1 Hsel s p' Hs e Hf; cbn [events].
  - apply selected_facts in Hsel as (Hp & Hc & _ & _).
    rewrite IH, foldl_app, replay_successes. cbn [foldl apply_event].
    rewrite counters_report_failure.
    by rewrite (counters_attempt _ _ _ _ _ _ _ _ _ _ Hp Hs), Hc.
  - apply selected_facts in Hsel as (Hp & Hc & _ & _).
    rewrite replay_successes.
    by rewrite (counters_attempt _ _ _ _ _ _ _ _ _ _ Hp Hs), Hc.
  - pose proof (counters_get_provider model self) as Hc.
    by rewrite Hsel in Hc.
Qed.

Lemma successes_fmap (i : nat) (l : list json) :
  successes ((λ _, Success i) <$> l) = (λ _, i) <$> l.
Proof. induction l as [|c l IH]; [done |]. simpl. by f_equal. Qed.

Lemma failures_fmap (i : nat) (l : list json) :
  failures ((λ _, Success i) <$> l) = [].
Proof. by induction l as [|c l IH]. Qed.

(** The events of the loop are those of its attempts: as many successes as
    fragments yielded, each on a provider that was called, and one failure
    for each attempt that raised, that is for each call but the last one
    of a loop that returns. *)
Lemma loop_events (todo : nat) :
  ∀ (attempt : nat) (errors : list string) (self : ProviderRouter),
    let out := loop todo attempt errors model messages self in
    length (successes (events out)) = length (yielded out) ∧
    successes (events out) ⊆ calls out ∧
    failures (events out) =
      (if raised out is None then removelast (calls out) else calls out) ∧
    (raised out = None → calls out ≠ []).
Proof.
  induction todo as [|todo IH]; intros attempt errors self; [done |].
  cbv zeta. loop_step i p self1 Hsel s p' Hs e Hf; cbn [events].
  - destruct (IH (S attempt) (errors ++ [name p +:+ ": " +:+ exn_str e])
                (report_failure i
                   (foldl (λ r _, report_success i r)
                      (set_providers (<[i := p']> (providers self1)) self1)
                      (chunks s)))) as (Hlen & Hsub & Hfail & Hcalls).
    unfold successes, failures in *.
    rewrite !omap_app. cbn [omap list_omap].
    fold (successes ((λ _, Success i) <$> chunks s)).
    fold (failures ((λ _, Success i) <$> chunks s)).
    rewrite successes_fmap, failures_fmap.
    repeat split.
    + by rewrite !length_app, length_fmap, Hlen.
    + intros j Hj. apply elem_of_app in Hj as [Hj | Hj].
      * apply list_elem_of_fmap in Hj as (c & -> & _). apply list_elem_of_here.
      * apply list_elem_of_further. by apply Hsub.
    + simpl. rewrite Hfail.
      destruct (raised _) as [e'|] eqn:Hr; [done |].
      destruct (calls _) as [|c cs] eqn:Hcs; [by destruct Hcalls | done].
    + done.
  - unfold successes, failures.
    fold (successes ((λ _, Success i) <$> chunks s)).
    fold (failures ((λ _, Success i) <$> chunks s)).
    rewrite successes_fmap, failures_fmap.
    repeat split; [by rewrite length_fmap | | done].
    intros j Hj. apply list_elem_of_fmap in Hj as (c & -> & _).
    apply list_elem_of_here.
  - done.
Qed.

(** A provider at the threshold is not called and keeps its counter. *)
Lemma loop_unhealthy_frame (todo : nat) :
  ∀ (attempt : nat) (errors : list string) (self : ProviderRouter)
    (i c : nat),
    counters self !! i = Some c → 3 ≤ c →
    (i ∉ calls (loop todo attempt errors model messages self)) ∧
    counters (after (loop todo attempt errors model messages self)) !! i =
      Some c.
Proof.
  induction todo as [|todo IH]; intros attempt errors self i c Hi Hc.
  { split; [apply not_elem_of_nil | done]. }
  loop_step j p self1 Hsel s p' Hs e Hf.
  - apply selected_facts in Hsel as (Hp & Hcs & Hj & Hlt).
    assert (Hne : j ≠ i) by (intros ->; simplify_eq; lia).
    destruct (IH (S attempt)
                (errors ++ [name p +:+ ": " +:+ exn_str e])
                (report_failure j
                   (foldl (λ r _, report_success j r)
                      (set_providers (<[j := p']> (providers self1)) self1)
                      (chunks s))) i c) as [Hnot Hafter]; [| done |].
    + rewrite counters_report_failure, list_lookup_alter_ne by done.
      rewrite (counters_attempt _ _ _ _ _ _ _ _ _ _ Hp Hs), Hcs.
      destruct (chunks s); [done |]. by rewrite list_lookup_insert_ne.
    + split; [| done]. rewrite not_elem_of_cons. auto.
  - apply selected_facts in Hsel as (Hp & Hcs & Hj & Hlt).
    assert (Hne : j ≠ i) by (intros ->; simplify_eq; lia).
    split; [rewrite not_elem_of_cons; split; [done | apply not_elem_of_nil] |].
    rewrite (counters_attempt _ _ _ _ _ _ _ _ _ _ Hp Hs), Hcs.
    destruct (chunks s); [done |]. by rewrite list_lookup_insert_ne.
  - split; [apply not_elem_of_nil |].
    pose proof (counters_get_provider model self) as Heq.
    rewrite Hsel in Heq. simpl in Heq. by rewrite Heq.
Qed.

(** After a call that returns normally, a counter exceeds its former value
    by at most the number of failed attempts on its provider. *)
Lemma loop_success_bound (todo : nat) :
  ∀ (attempt : nat) (errors : list string) (self : ProviderRouter),
    raised (loop todo attempt errors model messages self) = None →
    ∃ failed served,
      calls (loop todo attempt errors model messages self) =
        failed ++ [served] ∧
      ∀ i c, counters self !! i = Some c →
        ∃ c', counters (after (loop todo attempt errors model messages self))
                !! i = Some c' ∧
              c' ≤ c + count_occ Nat.eq_dec failed i.
Proof.
  induction todo as [|todo IH]; intros attempt errors self; [done |].
  loop_step j p self1 Hsel s p' Hs e Hf; [| | done].
  - intros Hok. apply selected_facts in Hsel as (Hp & Hcs & Hj & Hlt).
    destruct (IH _ _ _ Hok) as (failed & served & Hcalls & Hbound).
    exists (j :: failed), served. split; [by rewrite Hcalls |].
    intros i c Hi.
    assert (Hmid : ∃ c1,
      counters (report_failure j
                  (foldl (λ r _, report_success j r)
                     (set_providers (<[j := p']> (providers self1)) self1)
                     (chunks s))) !! i = Some c1 ∧
      c1 ≤ c + (if decide (j = i) then 1 else 0)).
    { rewrite counters_report_failure.
      rewrite (counters_attempt _ _ _ _ _ _ _ _ _ _ Hp Hs), Hcs.
      destruct (decide (j = i)) as [-> | Hne].
      - rewrite list_lookup_alter_eq.
        destruct (chunks s).
        + rewrite Hi. simpl. eexists. split; [done | lia].
        + rewrite list_lookup_insert_eq by (by eapply lookup_lt_Some).
          simpl. eexists. split; [done | lia].
      - rewrite list_lookup_alter_ne by done.
        destruct (chunks s).
        + exists c. split; [done | lia].
        + rewrite list_lookup_insert_ne by done. exists c. split; [done | lia]. }
    destruct Hmid as (c1 & Hc1 & Hle1).
    destruct (Hbound i c1 Hc1) as (c' & Hc' & Hle').
    exists c'. split; [done |].
    cbn [count_occ]. destruct (Nat.eq_dec j i), (decide (j = i)); lia.
  - intros _. apply selected_facts in Hsel as (Hp & Hcs & Hj & Hlt).
    exists [], j. split; [done |]. intros i c Hi.
    rewrite (counters_attempt _ _ _ _ _ _ _ _ _ _ Hp Hs), Hcs.
    destruct (chunks s).
    + exists c. split; [done | simpl; lia].
    + destruct (decide (j = i)) as [-> | Hne].
      * rewrite list_lookup_insert_eq by (by eapply lookup_lt_Some).
        exists 0. split; [done | lia].
      * rewrite list_lookup_insert_ne by done.
        exists c. split; [done | simpl; lia].
Qed.

End LoopFacts.

(** C4.  [get_provider] only returns a provider of the registry whose
    counter is below 3 and leaves all counters as they are; [report_success]
    puts one counter to 0 and [report_failure] adds one to one counter,
    leaving the others; the counters after a call of [stream_chat] are
    exactly those before it with the events of the call applied in order,
    a success putting the counter of its provider to 0 and a failure adding
    one to it, where the successes are as many as the fragments yielded,
    each on a provider that was called, and the failures are the attempts
    that raised (all calls, but the last one when the call returns); and a
    provider whose counter has reached 3 is not called by [stream_chat] and
    keeps its counter. *)
Theorem health_invariant (json_loads : string → option json)
    (world : nat → externals) (model : string) (messages : list message)
    (self : ProviderRouter) :
  let out := stream_chat json_loads world model messages self in
  (∀ i p, (get_provider model self).1 = Some (i, p) →
          providers self !! i = Some p ∧ failure_count p < 3) ∧
  counters (get_provider model self).2 = counters self ∧
  (∀ i, counters (report_success i self) = <[i := 0]> (counters self)) ∧
  (∀ i, counters (report_failure i self) =
        alter (λ c, c + 1) i (counters self)) ∧
  counters (after out) = foldl apply_event (counters self) (events out) ∧
  length (successes (events out)) = length (yielded out) ∧
  successes (events out) ⊆ calls out ∧
  failures (events out) =
    (if raised out is None then removelast (calls out) else calls out) ∧
  (∀ i c, counters self !! i = Some c → 3 ≤ c →
          (i ∉ calls out) ∧ counters (after out) !! i = Some c).
Proof.
  intros out. subst out.
  destruct (loop_events json_loads world model messages 3 0 [] self)
    as (Hlen & Hsub & Hfail & _).
  split; [| split; [| split; [| split; [| split; [| split; [| split;
    [| split]]]]]]].
  - intros i p Hfound.
    destruct (get_provider model self) as [found self1] eqn:Hsel.
    simpl in Hfound. subst found.
    apply get_provider_Some in Hsel as (Hp & Hacc & _).
    by apply accepts_true in Hacc as [Hlt _].
  - apply counters_get_provider.
  - intros i. apply counters_report_success.
  - intros i. apply counters_report_failure.
  - apply loop_replay.
  - exact Hlen.
  - exact Hsub.
  - exact Hfail.
  - intros i c Hi Hc. by apply loop_unhealthy_frame.
Qed.

Lemma health_invariant_witness :
  counters one_down !! 0 = Some 3 ∧ 3 ≤ 3 ∧
  (0 ∉ calls (stream_chat no_json idle_world "m" [] one_down)) ∧
  counters (after (stream_chat no_json idle_world "m" [] one_down)) !! 0 =
    Some 3 ∧
  events (stream_chat no_json idle_world "m" [] one_down) = [Success 1] ∧
  counters (after (stream_chat no_json idle_world "m" [] one_down)) =
    foldl apply_event (counters one_down) [Success 1].
Proof.
  split; [reflexivity |]. split; [lia |].
  destruct (health_invariant no_json idle_world "m" [] one_down)
    as (_ & _ & _ & _ & Hreplay & _ & _ & _ & Hdown).
  destruct (Hdown 0 3) as [Hcalls Hafter]; [reflexivity | lia |].
  split; [exact Hcalls |]. split; [exact Hafter |].
  split; [reflexivity | exact Hreplay].
Defined.

(** A call of [stream_chat] that returns normally can have incremented a
    counter: in the fallback scenario it returns normally and the counter of
    the first provider goes from 0 to 1. *)
Lemma success_without_increment_fails :
  ¬ (∀ (json_loads : string → option json) (world : nat → externals)
       (model : string) (messages : list message) (self : ProviderRouter)
       (i c c' : nat),
       raised (stream_chat json_loads world model messages self) = None →
       counters self !! i = Some c →
       counters (after (stream_chat json_loads world model messages self))
         !! i = Some c' →
       c' ≤ c).
Proof.
  intros Hclaim.
  specialize (Hclaim no_json idle_world "test-model" [] two_mocks 0 0 1).
  vm_compute in Hclaim.
  specialize (Hclaim eq_refl eq_refl eq_refl). lia.
Qed.

(** C9, amended.  After a call of [stream_chat] that returns normally, the
    providers called are those of the failed attempts followed by the one
    that served the request, and every counter exceeds its value before the
    call by at most the number of failed attempts on its provider; so when
    the first attempt succeeds no counter has grown. *)
Theorem success_counters (json_loads : string → option json)
    (world : nat → externals) (model : string) (messages : list message)
    (self : ProviderRouter) :
  let out := stream_chat json_loads world model messages self in
  raised out = None →
  ∃ failed served,
    calls out = failed ++ [served] ∧
    ∀ i c, counters self !! i = Some c →
      ∃ c', counters (after out) !! i = Some c' ∧
            c' ≤ c + count_occ Nat.eq_dec failed i.
Proof. intros out. apply loop_success_bound. Qed.

Lemma success_counters_witness :
  raised (stream_chat no_json idle_world "test-model" [] two_mocks) = None ∧
  ∃ failed served,
    calls (stream_chat no_json idle_world "test-model" [] two_mocks) =
      failed ++ [served] ∧
    ∀ i c, counters two_mocks !! i = Some c →
      ∃ c', counters
              (after (stream_chat no_json idle_world "test-model" [] two_mocks))
              !! i = Some c' ∧
            c' ≤ c + count_occ Nat.eq_dec failed i.
Proof.
  split; [reflexivity |].
  apply (success_counters no_json idle_world "test-model" [] two_mocks).
  reflexivity.
Defined.

(** ** The remote provider *)

Section RemoteParsing.

Context (json_loads : string → option json).

Local Abbreviation read_lines := (OpenAIProvider.read_lines json_loads).

(** An event that does not parse is skipped. *)
Lemma malformed_event_skipped (bad : string) (rest : list string)
    (end_fault : option exn) :
  json_loads bad = None → strip bad ≠ "[DONE]" →
  read_lines (("data: " +:+ bad) :: rest) end_fault =
  read_lines rest end_fault.
Proof.
  intros Hbad Hnot. cbn [OpenAIProvider.read_lines].
  change (startswith ("data: " +:+ bad) "data: ") with (String.prefix "" bad).
  change (slice_from 6 ("data: " +:+ bad)) with bad.
  rewrite (proj2 (String.eqb_neq _ _) Hnot).
  unfold OpenAIProvider.parse_event. rewrite Hbad.
  by destruct bad.
Qed.

(** The sentinel ends the stream normally, whatever follows it. *)
Lemma sentinel_terminates (payload : string) (rest : list string)
    (end_fault : option exn) :
  strip payload = "[DONE]" →
  read_lines (("data: " +:+ payload) :: rest) end_fault = finished.
Proof.
  intros Hdone. cbn [OpenAIProvider.read_lines].
  change (startswith ("data: " +:+ payload) "data: ")
    with (String.prefix "" payload).
  change (slice_from 6 ("data: " +:+ payload)) with payload.
  rewrite Hdone. by destruct payload.
Qed.

(** An event that carries a non-empty string at [choices[0].delta.content]
    yields that string. *)
Lemma fragment_event_yielded (good fragment : string)
    (members m1 m2 : list (string * json)) (others : list json)
    (more : list string) (end_fault : option exn) :
  json_loads good = Some (JObj members) →
  strip good ≠ "[DONE]" →
  assoc "choices" members = Some (JArr (JObj m1 :: others)) →
  assoc "delta" m1 = Some (JObj m2) →
  assoc "content" m2 = Some (JStr fragment) →
  fragment ≠ "" →
  read_lines (("data: " +:+ good) :: more) end_fault =
  yield_then (JStr fragment) (read_lines more end_fault).
Proof.
  intros Hgood Hnot Hc Hd Hf Hne. cbn [OpenAIProvider.read_lines].
  change (startswith ("data: " +:+ good) "data: ") with (String.prefix "" good).
  change (slice_from 6 ("data: " +:+ good)) with good.
  rewrite (proj2 (String.eqb_neq _ _) Hnot).
  unfold OpenAIProvider.parse_event. rewrite Hgood. simpl.
  rewrite Hc. simpl. rewrite Hd. simpl. rewrite Hf. simpl.
  rewrite (proj2 (String.eqb_neq _ _) Hne). simpl.
  by destruct good.
Qed.

(** An event that parses but is not an object is not skipped: the fault of
    the attribute access ends the stream. *)
Lemma wrong_shape_event_fatal (payload : string) (items : list json)
    (rest : list string) (end_fault : option exn) :
  json_loads payload = Some (JArr items) → strip payload ≠ "[DONE]" →
  read_lines (("data: " +:+ payload) :: rest) end_fault =
  raising (Exn "AttributeError" "'list' object has no attribute 'get'").
Proof.
  intros Hload Hnot. cbn [OpenAIProvider.read_lines].
  change (startswith ("data: " +:+ payload) "data: ")
    with (String.prefix "" payload).
  change (slice_from 6 ("data: " +:+ payload)) with payload.
  rewrite (proj2 (String.eqb_neq _ _) Hnot).
  unfold OpenAIProvider.parse_event. rewrite Hload.
  by destruct payload.
Qed.

(** C7.  When the endpoint answers 200 with a line whose payload does not
    parse as JSON, then a line whose payload is an object with the non-empty
    string [fragment] at [choices[0].delta.content], then the sentinel line
    (and whatever lines after it), [OpenAIProvider.stream_chat] yields
    exactly [fragment] and returns normally. *)
Theorem remote_http_parsing
    (http_stream : string → gmap string string → OpenAIProvider.payload
                   → OpenAIProvider.http_outcome)
    (self : BaseProvider) (base_url : string) (headers : gmap string string)
    (model : string) (messages : list message)
    (bad good fragment : string) (read_fault : exn)
    (members m1 m2 : list (string * json)) (others : list json)
    (rest : list string) (end_fault : option exn) :
  json_loads bad = None → strip bad ≠ "[DONE]" →
  json_loads good = Some (JObj members) → strip good ≠ "[DONE]" →
  assoc "choices" members = Some (JArr (JObj m1 :: others)) →
  assoc "delta" m1 = Some (JObj m2) →
  assoc "content" m2 = Some (JStr fragment) →
  fragment ≠ "" →
  (∀ url hs body, http_stream url hs body =
     OpenAIProvider.Response
       {| OpenAIProvider.status_code := 200;
          OpenAIProvider.read_fault := read_fault;
          OpenAIProvider.lines :=
            ("data: " +:+ bad) :: ("data: " +:+ good) :: "data: [DONE]"
            :: rest;
          OpenAIProvider.lines_fault := end_fault |}) →
  OpenAIProvider.stream_chat json_loads http_stream self base_url headers
    model messages =
  {| chunks := [JStr fragment]; fault := None |}.
Proof.
  intros Hbad Hbad' Hgood Hgood' Hc Hd Hf Hne Hhttp.
  unfold OpenAIProvider.stream_chat. rewrite Hhttp.
  cbn [OpenAIProvider.status_code OpenAIProvider.lines
       OpenAIProvider.lines_fault Nat.eqb negb].
  rewrite (malformed_event_skipped bad _ _ Hbad Hbad').
  rewrite (fragment_event_yielded good fragment members m1 m2 others
             _ _ Hgood Hgood' Hc Hd Hf Hne).
  by rewrite (sentinel_terminates "[DONE]").
Qed.

End RemoteParsing.

Lemma remote_http_parsing_witness :
  sample_json_loads "{oops" = None ∧ strip "{oops" ≠ "[DONE]" ∧
  sample_json_loads sample_event =
    Some (JObj [("choices",
                 JArr [JObj [("delta", JObj [("content", JStr "Hi")])]])]) ∧
  strip sample_event ≠ "[DONE]" ∧ "Hi" ≠ "" ∧
  OpenAIProvider.stream_chat sample_json_loads
    (answering ["data: {oops"; "data: " +:+ sample_event; "data: [DONE]"])
    (OpenAIProvider.new "remote" ["*"] empty_cfg)
    "https://api.openai.com/v1" ∅ "gpt-4" [] =
  {| chunks := [JStr "Hi"]; fault := None |}.
Proof.
  split; [reflexivity |]. split; [discriminate |]. split; [reflexivity |].
  split; [discriminate |]. split; [discriminate |].
  apply (remote_http_parsing sample_json_loads
           (answering ["data: {oops"; "data: " +:+ sample_event; "data: [DONE]"])
           (OpenAIProvider.new "remote" ["*"] empty_cfg)
           "https://api.openai.com/v1" ∅ "gpt-4" []
           "{oops" sample_event "Hi" OpenAIProvider.sync_on_async
           [("choices",
             JArr [JObj [("delta", JObj [("content", JStr "Hi")])]])]
           [("delta", JObj [("content", JStr "Hi")])]
           [("content", JStr "Hi")] [] [] None);
    try reflexivity; discriminate.
Defined.

(** ** The local provider *)






(** ** Bootstrap *)

Lemma load_one_unknown (acc : list BaseProvider) (cfg : provider_cfg)
    (t : string) :
  cfg_type cfg = Some t → t ≠ "g4f" → t ≠ "openai" → load_one acc cfg = acc.
Proof.
  intros Ht Hg Ho. unfold load_one. rewrite Ht. simpl.
  by rewrite (proj2 (String.eqb_neq _ _) Hg), (proj2 (String.eqb_neq _ _) Ho).
Qed.

Lemma foldl_load_one_unknown (cfgs : list provider_cfg)
    (acc : list BaseProvider) :
  (∀ cfg, cfg ∈ cfgs →
     ∃ t, cfg_type cfg = Some t ∧ t ≠ "g4f" ∧ t ≠ "openai") →
  foldl load_one acc cfgs = acc.
Proof.
  revert acc. induction cfgs as [|cfg cfgs IH]; intros acc Hall; [done |].
  simpl. destruct (Hall cfg) as (t & Ht & Hg & Ho); [apply list_elem_of_here |].
  rewrite (load_one_unknown acc cfg t Ht Hg Ho).
  apply IH. intros cfg' Hin. apply Hall. by apply list_elem_of_further.
Qed.

Lemma selects_empty (requested : list string) (self : ProviderRouter) :
  providers self = [] →
  selects requested self = ((λ _, None) <$> requested, self).
Proof.
  intros Hemp. induction requested as [|model rest IH]; [done |].
  cbn [selects]. unfold get_provider.
  rewrite bool_decide_eq_true_2 by done. by rewrite IH.
Qed.

(** C10.  A descriptor whose type is neither [g4f] nor [openai] adds no
    provider.  When the configuration file lists descriptors and all of them
    are of such types, the loader returns them as they are, without the
    default descriptor, which it appends only to an empty or missing list;
    the registry of the new router is empty, and every call of
    [get_provider] on it returns [None] and leaves it as it is. *)
Theorem unknown_types_dropped (cfgs : list provider_cfg) :
  cfgs ≠ [] →
  (∀ cfg, cfg ∈ cfgs →
     ∃ t, cfg_type cfg = Some t ∧ t ≠ "g4f" ∧ t ≠ "openai") →
  (∀ cfg acc, cfg ∈ cfgs → load_one acc cfg = acc) ∧
  ConfigLoader.load_providers (Some cfgs) = cfgs ∧
  ConfigLoader.load_providers (Some []) = [ConfigLoader.g4f_default] ∧
  ConfigLoader.load_providers None = [ConfigLoader.g4f_default] ∧
  providers (ProviderRouter_init (Some cfgs)) = [] ∧
  (∀ model,
     get_provider model (ProviderRouter_init (Some cfgs)) =
       (None, ProviderRouter_init (Some cfgs))) ∧
  (∀ requested,
     (selects requested (ProviderRouter_init (Some cfgs))).1 =
       (λ _, None) <$> requested).
Proof.
  intros Hne Hall.
  assert (Hload : ConfigLoader.load_providers (Some cfgs) = cfgs).
  { unfold ConfigLoader.load_providers. simpl.
    by rewrite bool_decide_eq_false_2. }
  assert (Hreg : providers (ProviderRouter_init (Some cfgs)) = []).
  { unfold ProviderRouter_init, _load_providers. simpl providers.
    rewrite Hload. by apply foldl_load_one_unknown. }
  repeat split; try done.
  - intros cfg acc Hin. destruct (Hall cfg Hin) as (t & Ht & Hg & Ho).
    by eapply load_one_unknown.
  - intros model. unfold get_provider. by rewrite bool_decide_eq_true_2.
  - intros requested. by rewrite selects_empty.
Qed.

Lemma unknown_types_dropped_witness :
  [unknown_cfg] ≠ [] ∧
  (∀ cfg, cfg ∈ [unknown_cfg] →
     ∃ t, cfg_type cfg = Some t ∧ t ≠ "g4f" ∧ t ≠ "openai") ∧
  providers (ProviderRouter_init (Some [unknown_cfg])) = [] ∧
  get_provider "gpt-4" (ProviderRouter_init (Some [unknown_cfg])) =
    (None, ProviderRouter_init (Some [unknown_cfg])).
Proof.
  assert (Hall : ∀ cfg, cfg ∈ [unknown_cfg] →
                   ∃ t, cfg_type cfg = Some t ∧ t ≠ "g4f" ∧ t ≠ "openai").
  { intros cfg Hin. apply list_elem_of_In in Hin. simpl in Hin.
    destruct Hin as [<- | []]. exists "anthropic".
    split; [reflexivity |]. split; discriminate. }
  split; [discriminate |]. split; [exact Hall |].
  destruct (unknown_types_dropped [unknown_cfg])
    as (_ & _ & _ & _ & Hreg & Hsel & _);
    [discriminate | exact Hall |].
  split; [exact Hreg | exact (Hsel "gpt-4")].
Defined.

(** * Further properties of the router *)

Section RouterFacts.

Context (json_loads : string → option json) (world : nat → externals).
Context (model : string) (messages : list message).

Local Abbreviation run_loop := (stream_chat_loop json_loads world).

Local Ltac loop_cases i p self1 Hsel s p' Hs e Hf :=
  cbn [stream_chat_loop];
  destruct (get_provider _ _) as [[[i p]|] self1] eqn:Hsel;
  [ destruct (provider_stream_chat _ _ _ _ _ _) as [s p'] eqn:Hs;
    destruct (fault s) as [e|] eqn:Hf
  | ];
  cbn [yielded raised after calls].


Lemma fmap_alter_frame {B : Type} (g : BaseProvider → B)
    (f : BaseProvider → BaseProvider) (i : nat) (ps : list BaseProvider) :
  (∀ p, g (f p) = g p) → g <$> alter f i ps = g <$> ps.
Proof.
  intros Hf. revert i.
  induction ps as [|p ps IH]; intros [|i]; simpl; f_equal; try done; apply IH.
Qed.

Lemma fmap_chunks_frame {B : Type} (g : BaseProvider → B) (i : nat)
    (cs : list json) (self : ProviderRouter) :
  (∀ n p, g (set_failure_count n p) = g p) →
  g <$> providers (foldl (λ r _, report_success i r) self cs) =
  g <$> providers self.
Proof.
  intros Hg. revert self. induction cs as [|c cs IH]; intros self; [done |].
  simpl. rewrite IH. unfold report_success. simpl.
  apply fmap_alter_frame. intros p. apply Hg.
Qed.


End RouterFacts.


Section RouterOutcomes.

Context (json_loads : string → option json) (world : nat → externals).
Context (model : string) (messages : list message).

Local Abbreviation run_loop := (stream_chat_loop json_loads world).

Local Ltac loop_cases i p self1 Hsel s p' Hs e Hf :=
  cbn [stream_chat_loop];
  destruct (get_provider _ _) as [[[i p]|] self1] eqn:Hsel;
  [ destruct (provider_stream_chat _ _ _ _ _ _) as [s p'] eqn:Hs;
    destruct (fault s) as [e|] eqn:Hf
  | ];
  cbn [yielded raised after calls].

(** After [get_provider] on a non-empty registry the cursor is a position of
    the registry. *)
Lemma get_provider_cursor (self : ProviderRouter) :
  providers self ≠ [] →
  current_index (get_provider model self).2 < length (providers self).
Proof.
  intros Hne. unfold get_provider. rewrite bool_decide_eq_false_2 by done.
  destruct self as [ps c]. simpl in *.
  assert (Hlen : 0 < length ps) by (destruct ps; [done | simpl; lia]).
  destruct (get_provider_loop_scan model ps Hne (length ps) c)
    as [(j & p & _ & _ & _ & _ & ->) | [_ ->]]; simpl.
  - apply Nat.mod_upper_bound. lia.
  - destruct (length ps) as [|k] eqn:E; [lia |].
    rewrite <- E. apply Nat.mod_upper_bound. lia.
Qed.

Lemma chunks_cursor (i : nat) (cs : list json) (self : ProviderRouter) :
  current_index (foldl (λ r _, report_success i r) self cs) =
  current_index self.
Proof.
  revert self. induction cs as [|c cs IH]; intros self; [done |].
  simpl. by rewrite IH.
Qed.

Lemma loop_cursor (todo : nat) :
  ∀ (attempt : nat) (errors : list string) (self : ProviderRouter),
    providers self ≠ [] →
    (todo = 0 → current_index self < length (providers self)) →
    current_index (after (run_loop todo attempt errors model messages self))
    < length (providers self).
Proof.
  induction todo as [|todo IH]; intros attempt errors self Hne Hcur;
    [by apply Hcur |].
  pose proof (get_provider_cursor self Hne) as Hc.
  pose proof (get_provider_providers model self) as Hps.
  loop_cases i p self1 Hsel s p' Hs e Hf; simpl in Hc, Hps.
  - set (self3 := report_failure i _).
    assert (Hlen : length (providers self3) = length (providers self)).
    { subst self3. unfold report_failure. simpl.
      rewrite length_alter, <- (length_fmap name), fmap_chunks_frame by done.
      simpl. by rewrite length_fmap, length_insert, Hps. }
    assert (Hcur3 : current_index self3 = current_index self1).
    { subst self3. unfold report_failure. simpl. by rewrite chunks_cursor. }
    rewrite <- Hlen. apply IH.
    + intros Hemp. rewrite Hemp in Hlen. destruct (providers self); done.
    + intros _. by rewrite Hlen, Hcur3.
  - by rewrite chunks_cursor.
  - done.
Qed.

(** The ways the loop ends: normally after at least one call, with the
    no-provider error, or, after as many failed calls as it had attempts,
    with the all-failed error that lists one more entry per call. *)
Lemma loop_outcome (todo : nat) :
  ∀ (attempt : nat) (errors : list string) (self : ProviderRouter),
    let out := run_loop todo attempt errors model messages self in
    length (calls out) ≤ todo ∧
    ((raised out = None ∧ 1 ≤ length (calls out)) ∨
     raised out = Some NoProviderAvailable ∨
     (∃ new, raised out = Some (AllProvidersFailed (errors ++ new)) ∧
             length new = todo ∧ length (calls out) = todo ∧
             ∀ k i entry, calls out !! k = Some i → new !! k = Some entry →
               ∃ p text, providers self !! i = Some p ∧
                         entry = name p +:+ ": " +:+ text)).
Proof.
  induction todo as [|todo IH]; intros attempt errors self.
  { simpl. split; [lia |]. right. right. exists [].
    rewrite app_nil_r. repeat split. intros k i entry Hk. done. }
  loop_cases i p self1 Hsel s p' Hs e Hf.
  - set (self3 := report_failure i _).
    destruct (IH (S attempt) (errors ++ [name p +:+ ": " +:+ exn_str e]) self3)
      as [Hle Hcases].
    split; [simpl; lia |].
    destruct Hcases as [[Hok Hone] | [Hnone | (new & Hall & Hlen & Hcalls & Hnames)]].
    + left. split; [done | simpl; lia].
    + right. by left.
    + right. right. exists ((name p +:+ ": " +:+ exn_str e) :: new).
      split; [by rewrite Hall, <- app_assoc |].
      split; [simpl; lia |]. split; [simpl; lia |].
      intros [|k] j entry Hj Hentry; simpl in Hj, Hentry.
      * simplify_eq. apply get_provider_Some in Hsel as (Hp & _ & _). eauto.
      * destruct (Hnames k j entry Hj Hentry) as (q & text & Hq & ->).
        assert (Hnm : name <$> providers self3 = name <$> providers self).
        { subst self3. unfold report_failure. simpl.
          rewrite fmap_alter_frame by done.
          rewrite fmap_chunks_frame by done. simpl.
          apply get_provider_Some in Hsel as (Hp & _ & Hps).
          rewrite list_fmap_insert, Hps.
          apply provider_stream_chat_frame in Hs as (_ & -> & _).
          apply list_insert_id. by rewrite list_lookup_fmap, Hp. }
        assert (Hq' : (name <$> providers self) !! j = Some (name q))
          by (by rewrite <- Hnm, list_lookup_fmap, Hq).
        rewrite list_lookup_fmap in Hq'.
        destruct (providers self !! j) as [q0|] eqn:Hq0; [| done].
        simpl in Hq'. simplify_eq. exists q0, text. by rewrite Hq'.
  - split; [simpl; lia |]. left. split; [done | simpl; lia].
  - split; [simpl; lia |]. right. by left.
Qed.

(** Counters that are at most 3 stay so. *)
Lemma loop_bounded (todo : nat) :
  ∀ (attempt : nat) (errors : list string) (self : ProviderRouter),
    Forall (λ c, c ≤ 3) (counters self) →
    Forall (λ c, c ≤ 3)
      (counters (after (run_loop todo attempt errors model messages self))).
Proof.
  induction todo as [|todo IH]; intros attempt errors self Hall; [done |].
  loop_cases i p self1 Hsel s p' Hs e Hf.
  - apply selected_facts in Hsel as (Hp & Hc & Hi & Hlt).
    apply IH. rewrite counters_report_failure.
    rewrite (counters_attempt _ _ _ _ _ _ _ _ _ _ Hp Hs), Hc.
    destruct (chunks s).
    + apply Forall_alter; [done |]. intros c Hci _. simplify_eq. lia.
    + apply Forall_alter; [apply Forall_insert; [done | lia] |].
      intros c Hci _.
      rewrite list_lookup_insert_eq in Hci by (by eapply lookup_lt_Some).
      simplify_eq. lia.
  - apply selected_facts in Hsel as (Hp & Hc & Hi & Hlt).
    rewrite (counters_attempt _ _ _ _ _ _ _ _ _ _ Hp Hs), Hc.
    destruct (chunks s); [done |]. apply Forall_insert; [done | lia].
  - pose proof (counters_get_provider model self) as Hc.
    rewrite Hsel in Hc. simpl in Hc. by rewrite Hc.
Qed.

End RouterOutcomes.

(** X1.  On a non-empty registry, whatever the cursor was, it is a position
    of the registry after [get_provider] and after [stream_chat]. *)
Theorem cursor_in_range (json_loads : string → option json)
    (world : nat → externals) (model : string) (messages : list message)
    (self : ProviderRouter) :
  providers self ≠ [] →
  current_index (get_provider model self).2 < length (providers self) ∧
  current_index (after (stream_chat json_loads world model messages self))
  < length (providers self).
Proof.
  intros Hne. split; [by apply get_provider_cursor |].
  apply loop_cursor; [done | discriminate].
Qed.

Lemma cursor_in_range_witness :
  providers (two_bad 7) ≠ [] ∧
  current_index (get_provider "m" (two_bad 7)).2 < length (providers (two_bad 7)) ∧
  current_index (after (stream_chat no_json idle_world "m" [] (two_bad 7)))
  < length (providers (two_bad 7)).
Proof.
  split; [discriminate |].
  apply (cursor_in_range no_json idle_world "m" [] (two_bad 7)). discriminate.
Defined.

(** X3.  A call of [stream_chat] makes at most three provider calls and ends
    in one of three ways: normally, after at least one call; with the
    no-provider error; or with the all-failed error, and then after exactly
    three calls, the error listing three entries of which the k-th starts
    with the name of the provider of the k-th call. *)
Theorem stream_chat_outcome (json_loads : string → option json)
    (world : nat → externals) (model : string) (messages : list message)
    (self : ProviderRouter) :
  let out := stream_chat json_loads world model messages self in
  length (calls out) ≤ 3 ∧
  ((raised out = None ∧ 1 ≤ length (calls out)) ∨
   raised out = Some NoProviderAvailable ∨
   (∃ entries, raised out = Some (AllProvidersFailed entries) ∧
               length entries = 3 ∧ length (calls out) = 3 ∧
               ∀ k i entry, calls out !! k = Some i →
                 entries !! k = Some entry →
                 ∃ p text, providers self !! i = Some p ∧
                           entry = name p +:+ ": " +:+ text)).
Proof.
  intros out. subst out. unfold stream_chat.
  apply (loop_outcome json_loads world model messages 3 0 [] self).
Qed.

Lemma init_counters_zero (acc : list BaseProvider)
    (cfgs : list provider_cfg) :
  Forall (λ p, failure_count p = 0) acc →
  Forall (λ p, failure_count p = 0) (foldl load_one acc cfgs).
Proof.
  revert acc. induction cfgs as [|cfg cfgs IH]; intros acc Hacc; [done |].
  simpl. apply IH. unfold load_one.
  destruct (String.eqb _ "g4f"); [| destruct (String.eqb _ "openai")];
    try done; apply Forall_app; split; try done; by apply Forall_singleton.
Qed.

(** X4.  The counters of a new router are all 0, and a call of [stream_chat]
    on a router whose counters are at most 3 leaves them at most 3: served
    one request after the other, no counter ever exceeds the threshold. *)
Theorem counters_stay_bounded (json_loads : string → option json)
    (world : nat → externals) (model : string) (messages : list message)
    (file_providers : option (list provider_cfg)) (self : ProviderRouter) :
  Forall (λ c, c = 0) (counters (ProviderRouter_init file_providers)) ∧
  (Forall (λ c, c ≤ 3) (counters self) →
   Forall (λ c, c ≤ 3)
     (counters (after (stream_chat json_loads world model messages self)))).
Proof.
  split.
  - unfold counters, ProviderRouter_init, _load_providers. simpl.
    apply Forall_fmap. apply init_counters_zero. done.
  - apply loop_bounded.
Qed.

Lemma counters_stay_bounded_witness :
  Forall (λ c, c ≤ 3) (counters one_down) ∧
  Forall (λ c, c ≤ 3)
    (counters (after (stream_chat no_json idle_world "m" [] one_down))).
Proof.
  assert (H : Forall (λ c, c ≤ 3) (counters one_down)).
  { repeat constructor. }
  split; [exact H |].
  apply (counters_stay_bounded no_json idle_world "m" [] None one_down).
  exact H.
Defined.

Lemma get_provider_none (model : string) (self : ProviderRouter) :
  (∀ p, p ∈ providers self → accepts model p = false) →
  get_provider model self =
    (None, if bool_decide (providers self = []) then self
           else set_current_index
                  (current_index self mod length (providers self)) self).
Proof.
  intros Hall. unfold get_provider. case_bool_decide as Hne; [done |].
  destruct self as [ps c]. simpl in *.
  assert (Hlen : 0 < length ps) by (destruct ps; [done | simpl; lia]).
  destruct (get_provider_loop_scan model ps Hne (length ps) c)
    as [(j & p & _ & Hp & Hacc & _ & _) | [_ ->]].
  - apply list_elem_of_lookup_2 in Hp. rewrite (Hall p Hp) in Hacc. done.
  - unfold set_current_index. simpl.
    destruct (length ps) as [|k] eqn:E; [lia |]. do 2 f_equal.
    replace (c + 1 + k) with (c + 1 * S k) by lia.
    by rewrite Nat.Div0.mod_add.
Qed.

(** X5.  When no provider of the registry is both healthy and able to serve
    the model (its models list neither the model nor the wildcard),
    [stream_chat] raises the no-provider error at once: it yields nothing,
    calls no provider and leaves every provider as it is, so the same holds
    for the next request for that model; the cursor, reduced modulo the
    length, is where it was.  In particular nothing resets the counters once
    every provider has reached the threshold. *)
Theorem no_eligible_provider (json_loads : string → option json)
    (world : nat → externals) (model : string) (messages : list message)
    (self : ProviderRouter) :
  (∀ p, p ∈ providers self →
        ¬ (failure_count p < 3 ∧ (model ∈ models p ∨ "*" ∈ models p))) →
  let out := stream_chat json_loads world model messages self in
  raised out = Some NoProviderAvailable ∧
  yielded out = [] ∧ calls out = [] ∧
  providers (after out) = providers self ∧
  current_index (after out) =
    (if bool_decide (providers self = []) then current_index self
     else current_index self mod length (providers self)).
Proof.
  intros Hall out. subst out. unfold stream_chat. cbn [stream_chat_loop].
  rewrite get_provider_none
    by (intros p Hp; apply accepts_false; by apply Hall).
  cbn [yielded raised after calls]. repeat split.
  - by case_bool_decide.
  - by case_bool_decide.
Qed.

Lemma no_eligible_provider_witness :
  (∀ p, p ∈ providers gpt_only →
        ¬ (failure_count p < 3 ∧ ("llama" ∈ models p ∨ "*" ∈ models p))) ∧
  raised (stream_chat no_json idle_world "llama" [] gpt_only) =
    Some NoProviderAvailable ∧
  yielded (stream_chat no_json idle_world "llama" [] gpt_only) = [] ∧
  calls (stream_chat no_json idle_world "llama" [] gpt_only) = [] ∧
  providers (after (stream_chat no_json idle_world "llama" [] gpt_only)) =
    providers gpt_only ∧
  current_index (after (stream_chat no_json idle_world "llama" [] gpt_only)) =
    (if bool_decide (providers gpt_only = []) then current_index gpt_only
     else current_index gpt_only mod length (providers gpt_only)).
Proof.
  assert (H : ∀ p, p ∈ providers gpt_only →
     ¬ (failure_count p < 3 ∧ ("llama" ∈ models p ∨ "*" ∈ models p))).
  { intros p Hp. apply list_elem_of_In in Hp. simpl in Hp.
    destruct Hp as [<- | []]. simpl. intros [_ [Hin | Hin]];
      apply list_elem_of_In in Hin; simpl in Hin;
      destruct Hin as [Heq | []]; discriminate Heq. }
  split; [exact H |].
  apply (no_eligible_provider no_json idle_world "llama" [] gpt_only). exact H.
Defined.

(** ** Fragments *)

Lemma relay_truthy (cs : list G4FProvider.chunk) (end_fault : option exn) :
  Forall (λ c, G4FProvider.chunk_bool c = true → G4FProvider.chunk_str c ≠ "")
    cs →
  Forall (λ v, truthy v = true) (chunks (G4FProvider.relay cs end_fault)).
Proof.
  induction 1 as [|c cs Hc Hcs IH]; [constructor |]. simpl.
  destruct (G4FProvider.chunk_bool c) eqn:E; simpl; [| done].
  constructor; [| done]. simpl.
  destruct (String.eqb_spec (G4FProvider.chunk_str c) ""); [| done].
  by destruct Hc.
Qed.

Lemma read_lines_truthy (json_loads : string → option json)
    (ls : list string) (end_fault : option exn) :
  Forall (λ v, truthy v = true)
    (chunks (OpenAIProvider.read_lines json_loads ls end_fault)).
Proof.
  induction ls as [|line ls IH]; [constructor |]. simpl.
  destruct (startswith line "data: "); [| done].
  destruct (String.eqb _ "[DONE]"); [constructor |].
  unfold OpenAIProvider.parse_event.
  destruct (json_loads _) as [data|]; [| done].
  destruct (get data "choices" _) as [e|choices]; simpl; [constructor |].
  destruct (item0 choices) as [e|first]; simpl; [constructor |].
  destruct (get first "delta" _) as [e|delta]; simpl; [constructor |].
  destruct (get delta "content" _) as [e|content]; simpl; [constructor |].
  destruct (truthy content) eqn:E; [| done]. by constructor.
Qed.

Lemma provider_chunks_truthy (json_loads : string → option json)
    (world : nat → externals) (attempt : nat) (p : BaseProvider)
    (model : string) (messages : list message) :
  Forall (λ c, G4FProvider.chunk_bool c = true → G4FProvider.chunk_str c ≠ "")
    (G4FProvider.g4f_chunks (g4f_create (world attempt) model messages)) →
  Forall (λ v, truthy v = true)
    (chunks (provider_stream_chat json_loads world attempt p model messages).1).
Proof.
  intros Hlocal.
  unfold provider_stream_chat. destruct (kind p) as [| base key hs | [] n].
  - by apply relay_truthy.
  - unfold OpenAIProvider.stream_chat, try_except. simpl.
    destruct (http_stream _ _ _ _) as [e|r]; [constructor |].
    destruct (negb _); [constructor | apply read_lines_truthy].
  - constructor.
  - by repeat constructor.
Qed.

Lemma loop_truthy (json_loads : string → option json)
    (world : nat → externals) (model : string) (messages : list message)
    (todo : nat) :
  (∀ attempt,
     Forall (λ c, G4FProvider.chunk_bool c = true →
                  G4FProvider.chunk_str c ≠ "")
       (G4FProvider.g4f_chunks (g4f_create (world attempt) model messages))) →
  ∀ (attempt : nat) (errors : list string) (self : ProviderRouter),
    Forall (λ v, truthy v = true)
      (yielded (stream_chat_loop json_loads world todo attempt errors
                  model messages self)).
Proof.
  intros Hlocal.
  induction todo as [|todo IH]; intros attempt errors self; [constructor |].
  cbn [stream_chat_loop].
  destruct (get_provider model self) as [[[i p]|] self1]; [| constructor].
  pose proof (provider_chunks_truthy json_loads world attempt p model messages
                (Hlocal attempt)) as Hchunks.
  destruct (provider_stream_chat _ _ _ _ _ _) as [s p'].
  destruct (fault s); simpl in *; [| done].
  apply Forall_app. split; [done | apply IH].
Qed.

(** X6.  When every chunk of the local mechanism that is true has a
    [str] that is not empty (as every chunk that is a string has), no
    fragment that [stream_chat] yields is empty: every yielded value is true
    in the sense of [if chunk:], whatever the remote endpoints answer. *)
Theorem fragments_never_empty (json_loads : string → option json)
    (world : nat → externals) (model : string) (messages : list message)
    (self : ProviderRouter) :
  (∀ attempt,
     Forall (λ c, G4FProvider.chunk_bool c = true →
                  G4FProvider.chunk_str c ≠ "")
       (G4FProvider.g4f_chunks (g4f_create (world attempt) model messages))) →
  Forall (λ v, truthy v = true)
    (yielded (stream_chat json_loads world model messages self)).
Proof. intros Hlocal. by apply loop_truthy. Qed.

Lemma fragments_never_empty_witness :
  (∀ attempt,
     Forall (λ c, G4FProvider.chunk_bool c = true →
                  G4FProvider.chunk_str c ≠ "")
       (G4FProvider.g4f_chunks (g4f_create (flaky_world attempt) "llama" []))) ∧
  Forall (λ v, truthy v = true)
    (yielded (stream_chat no_json flaky_world "llama" [] (one_local 0))).
Proof.
  assert (H : ∀ attempt,
     Forall (λ c, G4FProvider.chunk_bool c = true →
                  G4FProvider.chunk_str c ≠ "")
       (G4FProvider.g4f_chunks (g4f_create (flaky_world attempt) "llama" []))).
  { intros attempt. simpl. repeat constructor. simpl. discriminate. }
  split; [exact H |].
  apply (fragments_never_empty no_json flaky_world "llama" [] (one_local 0)).
  exact H.
Defined.

(** The condition on the local mechanism is needed: a chunk that is true
    and whose [str] is empty is relayed as an empty fragment. *)
Lemma relay_empty_fragment :
  chunks (G4FProvider.relay
            [{| G4FProvider.chunk_bool := true;
                G4FProvider.chunk_str := EmptyString |}] None) =
  [JStr EmptyString].
Proof. reflexivity. Qed.

(** ** A registry of one local provider *)

Section OneLocal.

Context (json_loads : string → option json) (world : nat → externals).
Context (model : string) (messages : list message).

Local Abbreviation run_loop := (stream_chat_loop json_loads world).
Local Abbreviation local_run attempt :=
  (G4FProvider.stream_chat (g4f_create (world attempt) model messages)).



End OneLocal.


Section OneLocalFailing.

Context (json_loads : string → option json) (world : nat → externals).
Context (model : string) (messages : list message).

Local Abbreviation run_loop := (stream_chat_loop json_loads world).
Local Abbreviation relayed attempt :=
  ((λ c, JStr (G4FProvider.chunk_str c))
      <$> filter (λ c, G4FProvider.chunk_bool c = true)
     (G4FProvider.g4f_chunks (g4f_create (world attempt) model messages))).


End OneLocalFailing.



Section OneLocalDead.

Context (json_loads : string → option json) (world : nat → externals).
Context (model : string) (messages : list message).

Local Abbreviation run_loop := (stream_chat_loop json_loads world).


End OneLocalDead.



(** * Further properties of the remote provider *)

(** ** Strings *)

Lemma rev_app_append (s1 s2 acc : string) :
  String.rev_app (s1 +:+ s2) acc = String.rev_app s2 (String.rev_app s1 acc).
Proof.
  revert acc. induction s1 as [|c s1 IH]; intros acc; [done |].
  simpl. apply IH.
Qed.

Lemma lstrip_rev_spaces (ws acc : string) :
  Forall (λ c, isspace c = true) (list_ascii_of_string ws) →
  lstrip (String.rev_app ws acc) = lstrip acc.
Proof.
  revert acc. induction ws as [|c ws IH]; intros acc Hall; [done |].
  simpl in *. apply Forall_cons in Hall as [Hc Hws].
  rewrite IH by done. simpl. by rewrite Hc.
Qed.

Lemma lstrip_spaces (ws s : string) :
  Forall (λ c, isspace c = true) (list_ascii_of_string ws) →
  lstrip (ws +:+ s) = lstrip s.
Proof.
  induction ws as [|c ws IH]; intros Hall; [done |].
  simpl in *. apply Forall_cons in Hall as [Hc Hws].
  rewrite Hc. by apply IH.
Qed.

(** The sentinel is recognised with white space around it. *)
Lemma strip_sentinel_spaces (ws1 ws2 : string) :
  Forall (λ c, isspace c = true) (list_ascii_of_string ws1) →
  Forall (λ c, isspace c = true) (list_ascii_of_string ws2) →
  strip (ws1 +:+ "[DONE]" +:+ ws2) = "[DONE]".
Proof.
  intros H1 H2. unfold strip. rewrite lstrip_spaces by done.
  change (lstrip ("[DONE]" +:+ ws2)) with ("[DONE]" +:+ ws2).
  unfold String.rev at 2. rewrite rev_app_append.
  by rewrite lstrip_rev_spaces.
Qed.

Lemma rstrip_char_trailing (x : ascii) (s : string) :
  rstrip_char x (s +:+ String x "") = rstrip_char x s.
Proof.
  unfold rstrip_char. unfold String.rev at 2. rewrite rev_app_append.
  simpl. by rewrite Ascii.eqb_refl.
Qed.

(** ** Lines and events *)

Section RemoteLines.

Context (json_loads : string → option json).

Local Abbreviation read_lines := (OpenAIProvider.read_lines json_loads).

(** X9.  Only the lines that start with the marker [data: ] count: the
    stream read from a response is the one read from its marked lines
    alone, so empty lines, comments and other fields change nothing. *)
Theorem other_lines_ignored (ls : list string) (end_fault : option exn) :
  read_lines ls end_fault =
  read_lines (filter (λ line, startswith line "data: " = true) ls) end_fault.
Proof.
  induction ls as [|line ls IH]; [done |].
  destruct (startswith line "data: ") eqn:E.
  - rewrite filter_cons_True by done.
    cbn [OpenAIProvider.read_lines]. rewrite E, IH. reflexivity.
  - rewrite filter_cons_False by (rewrite E; discriminate).
    cbn [OpenAIProvider.read_lines]. by rewrite E.
Qed.

(** X10.  Once the sentinel has been read, neither the lines after it nor
    the way the connection ends has any effect on the stream. *)
Theorem nothing_after_sentinel (before after1 after2 : list string)
    (payload : string) (fault1 fault2 : option exn) :
  strip payload = "[DONE]" →
  read_lines (before ++ ("data: " +:+ payload) :: after1) fault1 =
  read_lines (before ++ ("data: " +:+ payload) :: after2) fault2.
Proof.
  intros Hdone. induction before as [|line before IH].
  - simpl app. by rewrite !sentinel_terminates.
  - cbn [app OpenAIProvider.read_lines]. by rewrite IH.
Qed.

Lemma payload_without_content (payload : string)
    (members : list (string * json)) (rest : list string)
    (end_fault : option exn) :
  json_loads payload = Some (JObj members) →
  strip payload ≠ "[DONE]" →
  (assoc "choices" members = None ∨
   ∃ m1 others, assoc "choices" members = Some (JArr (JObj m1 :: others)) ∧
     (assoc "delta" m1 = None ∨
      ∃ m2, assoc "delta" m1 = Some (JObj m2) ∧
        (assoc "content" m2 = None ∨
         ∃ v, assoc "content" m2 = Some v ∧ truthy v = false))) →
  read_lines (("data: " +:+ payload) :: rest) end_fault =
  read_lines rest end_fault.
Proof.
  intros Hload Hnot Hshape. cbn [OpenAIProvider.read_lines].
  change (startswith ("data: " +:+ payload) "data: ")
    with (String.prefix "" payload).
  change (slice_from 6 ("data: " +:+ payload)) with payload.
  rewrite (proj2 (String.eqb_neq _ _) Hnot).
  unfold OpenAIProvider.parse_event. rewrite Hload.
  assert (Hpre : String.prefix "" payload = true) by (by destruct payload).
  rewrite Hpre. simpl.
  destruct Hshape as [-> | (m1 & others & -> & Hdelta)]; simpl; [done |].
  destruct Hdelta as [-> | (m2 & -> & Hcontent)]; simpl; [done |].
  destruct Hcontent as [-> | (v & -> & Hv)]; simpl; [done |].
  by rewrite Hv.
Qed.

(** X11.  An event whose payload is an object is skipped, without failing
    the attempt, when the object has no [choices], when the first choice is
    an object without [delta], and when the delta is an object without
    [content] or with a content that is empty ([None], an empty string and
    the like). *)
Theorem event_without_content_skipped (payload : string)
    (members : list (string * json)) (rest : list string)
    (end_fault : option exn) :
  json_loads payload = Some (JObj members) →
  strip payload ≠ "[DONE]" →
  (assoc "choices" members = None ∨
   ∃ m1 others, assoc "choices" members = Some (JArr (JObj m1 :: others)) ∧
     (assoc "delta" m1 = None ∨
      ∃ m2, assoc "delta" m1 = Some (JObj m2) ∧
        (assoc "content" m2 = None ∨
         ∃ v, assoc "content" m2 = Some v ∧ truthy v = false))) →
  read_lines (("data: " +:+ payload) :: rest) end_fault =
  read_lines rest end_fault.
Proof. apply payload_without_content. Qed.

(** X12.  An event whose [choices] is an empty list is not skipped: the
    subscript raises [IndexError], the stream ends with it, and the lines
    after the event are not read. *)
Theorem empty_choices_fatal (payload : string)
    (members : list (string * json)) (rest : list string)
    (end_fault : option exn) :
  json_loads payload = Some (JObj members) →
  strip payload ≠ "[DONE]" →
  assoc "choices" members = Some (JArr []) →
  read_lines (("data: " +:+ payload) :: rest) end_fault =
  raising (Exn "IndexError" "list index out of range").
Proof.
  intros Hload Hnot Hchoices. cbn [OpenAIProvider.read_lines].
  change (startswith ("data: " +:+ payload) "data: ")
    with (String.prefix "" payload).
  change (slice_from 6 ("data: " +:+ payload)) with payload.
  rewrite (proj2 (String.eqb_neq _ _) Hnot).
  unfold OpenAIProvider.parse_event. rewrite Hload.
  assert (Hpre : String.prefix "" payload = true) by (by destruct payload).
  rewrite Hpre. simpl. by rewrite Hchoices.
Qed.

(** X13.  The sentinel ends the stream normally also when white space
    surrounds it in the line. *)
Theorem sentinel_with_spaces (ws1 ws2 : string) (rest : list string)
    (end_fault : option exn) :
  Forall (λ c, isspace c = true) (list_ascii_of_string ws1) →
  Forall (λ c, isspace c = true) (list_ascii_of_string ws2) →
  read_lines (("data: " +:+ ws1 +:+ "[DONE]" +:+ ws2) :: rest) end_fault =
  finished.
Proof.
  intros H1 H2. apply sentinel_terminates. by apply strip_sentinel_spaces.
Qed.

(** X14.  Slashes at the end of the base URL do not count: with one more
    slash the provider sends the same request and produces the same
    stream. *)
Theorem trailing_slash_irrelevant
    (http_stream : string → gmap string string → OpenAIProvider.payload
                   → OpenAIProvider.http_outcome)
    (self : BaseProvider) (base_url : string) (headers : gmap string string)
    (model : string) (messages : list message) :
  OpenAIProvider.stream_chat json_loads http_stream self (base_url +:+ "/")
    headers model messages =
  OpenAIProvider.stream_chat json_loads http_stream self base_url
    headers model messages.
Proof.
  unfold OpenAIProvider.stream_chat.
  by rewrite (rstrip_char_trailing "/" base_url).
Qed.

End RemoteLines.

Lemma nothing_after_sentinel_witness :
  strip " [DONE]" = "[DONE]" ∧
  OpenAIProvider.read_lines no_json
    ([": ping"] ++ ("data: " +:+ " [DONE]") :: ["data: {}"]) None =
  OpenAIProvider.read_lines no_json
    ([": ping"] ++ ("data: " +:+ " [DONE]") :: [])
    (Some (Exn "ReadError" "connection reset")).
Proof.
  split; [reflexivity |].
  apply (nothing_after_sentinel no_json [": ping"] ["data: {}"] [] " [DONE]").
  reflexivity.
Defined.

Lemma event_without_content_skipped_witness :
  table_json_loads sample_table "{}" = Some (JObj []) ∧
  strip "{}" ≠ "[DONE]" ∧
  OpenAIProvider.read_lines (table_json_loads sample_table)
    (("data: " +:+ "{}") :: ["data: [DONE]"]) None =
  OpenAIProvider.read_lines (table_json_loads sample_table)
    ["data: [DONE]"] None.
Proof.
  split; [reflexivity |]. split; [discriminate |].
  apply (event_without_content_skipped (table_json_loads sample_table)
           "{}" [] ["data: [DONE]"] None);
    [reflexivity | discriminate | by left].
Defined.

Lemma empty_choices_fatal_witness :
  table_json_loads sample_table empty_choices_event =
    Some (JObj [("choices", JArr [])]) ∧
  strip empty_choices_event ≠ "[DONE]" ∧
  OpenAIProvider.read_lines (table_json_loads sample_table)
    (("data: " +:+ empty_choices_event) :: ["data: [DONE]"]) None =
  raising (Exn "IndexError" "list index out of range").
Proof.
  split; [reflexivity |]. split; [discriminate |].
  apply (empty_choices_fatal (table_json_loads sample_table)
           empty_choices_event [("choices", JArr [])] ["data: [DONE]"] None);
    [reflexivity | discriminate | reflexivity].
Defined.

Lemma sentinel_with_spaces_witness :
  Forall (λ c, isspace c = true) (list_ascii_of_string "  ") ∧
  Forall (λ c, isspace c = true) (list_ascii_of_string " ") ∧
  OpenAIProvider.read_lines no_json
    (("data: " +:+ "  " +:+ "[DONE]" +:+ " ") :: ["data: {}"]) None =
  finished.
Proof.
  assert (H1 : Forall (λ c, isspace c = true) (list_ascii_of_string "  "))
    by (repeat constructor).
  assert (H2 : Forall (λ c, isspace c = true) (list_ascii_of_string " "))
    by (repeat constructor).
  split; [exact H1 |]. split; [exact H2 |].
  apply (sentinel_with_spaces no_json "  " " " ["data: {}"] None H1 H2).
Defined.



(** * Further properties of the bootstrap *)

(** A descriptor gives a provider when its type, [g4f] if it has none, is
    one of the two the router knows. *)
Lemma load_one_known (acc : list BaseProvider) (cfg : provider_cfg) :
  default "g4f" (cfg_type cfg) = "g4f" ∨
  default "g4f" (cfg_type cfg) = "openai" →
  ∃ p, load_one acc cfg = acc ++ [p] ∧
       name p = default "unnamed" (cfg_name cfg) ∧
       models p = default [] (cfg_models cfg) ∧
       config p = cfg ∧ failure_count p = 0 ∧ is_active p = true ∧
       (kind p = G4F ↔ default "g4f" (cfg_type cfg) = "g4f").
Proof.
  intros Hknown. unfold load_one.
  destruct (String.eqb_spec (default "g4f" (cfg_type cfg)) "g4f") as [Hg | Hg].
  - eexists. split; [done |]. by repeat split.
  - destruct Hknown as [? | Ho]; [done |].
    rewrite Ho. simpl. eexists. split; [done |].
    by repeat split.
Qed.

Lemma load_one_other (acc : list BaseProvider) (cfg : provider_cfg) :
  ¬ (default "g4f" (cfg_type cfg) = "g4f" ∨
     default "g4f" (cfg_type cfg) = "openai") →
  load_one acc cfg = acc.
Proof.
  intros Hother. unfold load_one.
  destruct (String.eqb_spec (default "g4f" (cfg_type cfg)) "g4f");
    [tauto |].
  destruct (String.eqb_spec (default "g4f" (cfg_type cfg)) "openai");
    [tauto | done].
Qed.

Lemma load_fold {B : Type} (g : BaseProvider → B) (h : provider_cfg → B) :
  (∀ acc cfg p, load_one acc cfg = acc ++ [p] →
     name p = default "unnamed" (cfg_name cfg) →
     models p = default [] (cfg_models cfg) → config p = cfg →
     (kind p = G4F ↔ default "g4f" (cfg_type cfg) = "g4f") →
     g p = h cfg) →
  ∀ (cfgs : list provider_cfg) (acc : list BaseProvider),
    g <$> foldl load_one acc cfgs =
    (g <$> acc) ++
    (h <$> filter (λ cfg, default "g4f" (cfg_type cfg) = "g4f" ∨
                          default "g4f" (cfg_type cfg) = "openai") cfgs).
Proof.
  intros Hgh cfgs. induction cfgs as [|cfg cfgs IH]; intros acc.
  { simpl. by rewrite app_nil_r. }
  simpl foldl.
  destruct (decide (default "g4f" (cfg_type cfg) = "g4f" ∨
                    default "g4f" (cfg_type cfg) = "openai")) as [Hk | Hk].
  - rewrite filter_cons_True by done.
    destruct (load_one_known acc cfg Hk)
      as (p & Hp & Hn & Hm & Hc & _ & _ & Hkind).
    rewrite IH, Hp, fmap_app, <- app_assoc. simpl.
    by rewrite (Hgh acc cfg p Hp Hn Hm Hc Hkind).
  - rewrite filter_cons_False by done.
    by rewrite IH, (load_one_other acc cfg Hk).
Qed.

(** X15.  The registry of a router built from a configuration file that
    lists descriptors holds one provider for each descriptor whose type,
    [g4f] when the descriptor has none, is [g4f] or [openai], in the order
    of the file and with nothing else: each provider keeps its descriptor
    as its configuration, takes its name from it ([unnamed] without one) and
    its models (none without any), and is a local provider exactly when the
    type is [g4f] or absent. *)
Theorem registry_from_config (cfgs : list provider_cfg) :
  cfgs ≠ [] →
  let known := λ cfg, default "g4f" (cfg_type cfg) = "g4f" ∨
                      default "g4f" (cfg_type cfg) = "openai" in
  let registry := providers (ProviderRouter_init (Some cfgs)) in
  config <$> registry = filter known cfgs ∧
  name <$> registry =
    (λ cfg, default "unnamed" (cfg_name cfg)) <$> filter known cfgs ∧
  models <$> registry =
    (λ cfg, default [] (cfg_models cfg)) <$> filter known cfgs ∧
  (λ p, match kind p with G4F => true | _ => false end) <$> registry =
    (λ cfg, String.eqb (default "g4f" (cfg_type cfg)) "g4f")
      <$> filter known cfgs ∧
  length registry ≤ length cfgs.
Proof.
  intros Hne known registry. subst known registry.
  unfold ProviderRouter_init, _load_providers. cbn [providers].
  assert (Hload : ConfigLoader.load_providers (Some cfgs) = cfgs).
  { unfold ConfigLoader.load_providers. simpl.
    by rewrite bool_decide_eq_false_2. }
  rewrite Hload.
  assert (Hconfig : config <$> foldl load_one [] cfgs =
            filter (λ cfg, default "g4f" (cfg_type cfg) = "g4f" ∨
                           default "g4f" (cfg_type cfg) = "openai") cfgs).
  { rewrite (load_fold config id) by (intros; done).
    simpl. by rewrite list_fmap_id. }
  split; [done |]. split; [| split; [| split]].
  - by rewrite (load_fold name (λ cfg, default "unnamed" (cfg_name cfg)))
      by (intros; done).
  - by rewrite (load_fold models (λ cfg, default [] (cfg_models cfg)))
      by (intros; done).
  - rewrite (load_fold (λ p, match kind p with G4F => true | _ => false end)
               (λ cfg, String.eqb (default "g4f" (cfg_type cfg)) "g4f"));
      [done |].
    intros acc cfg p _ _ _ _ Hkind.
    destruct (String.eqb_spec (default "g4f" (cfg_type cfg)) "g4f") as [E | E].
    + by rewrite (proj2 Hkind E).
    + destruct (kind p); [by destruct E; apply Hkind | done | done].
  - rewrite <- (length_fmap config), Hconfig. apply length_filter.
Qed.

Lemma registry_from_config_witness :
  [unknown_cfg; empty_cfg] ≠ [] ∧
  config <$> providers (ProviderRouter_init (Some [unknown_cfg; empty_cfg])) =
    [empty_cfg] ∧
  name <$> providers (ProviderRouter_init (Some [unknown_cfg; empty_cfg])) =
    ["unnamed"].
Proof.
  destruct (registry_from_config [unknown_cfg; empty_cfg])
    as (Hconfig & Hname & _); [discriminate |].
  split; [discriminate |]. split; [exact Hconfig | exact Hname].
Defined.

(** X16.  Without a configuration file, or with one that lists no provider,
    the registry is the single default local provider, and [get_provider]
    returns it for every model. *)
Theorem default_provider_serves_all (model : string) :
  let default_provider :=
    G4FProvider.new "g4f-default" ["gpt-4"; "gpt-3.5-turbo"; "*"]
      ConfigLoader.g4f_default in
  providers (ProviderRouter_init None) = [default_provider] ∧
  providers (ProviderRouter_init (Some [])) = [default_provider] ∧
  get_provider model (ProviderRouter_init None) =
    (Some (0, default_provider), ProviderRouter_init None) ∧
  get_provider model (ProviderRouter_init (Some [])) =
    (Some (0, default_provider), ProviderRouter_init (Some [])).
Proof. repeat split. Qed.

(** * Properties of the callers *)

(** ** Intent classification *)

Lemma concat_chunks_text (cs : list json) (response : string) :
  (∃ v, v ∈ cs ∧ ∀ s, v ≠ JStr s) →
  ∃ e, concat_chunks response cs = inl e.
Proof.
  revert response. induction cs as [|c cs IH]; intros response (v & Hin & Hv).
  { by apply elem_of_nil in Hin. }
  apply elem_of_cons in Hin as [-> | Hin].
  - destruct c; simpl; eauto. by destruct (Hv s).
  - destruct c; simpl; eauto.
Qed.

(** X17.  [classify_intent] does not raise and returns one of its three
    categories.  It returns [chat] whenever the completion raises, whatever
    text had been received before, and whenever a chunk is not a string. *)
Theorem classify_intent_defaults (json_loads : string → option json)
    (world : nat → externals) (message : string) (_router : ProviderRouter) :
  let out :=
    llm.get_completion json_loads world "gpt-3.5-turbo"
      [ {[ "role" := "user"; "content" := intent.prompt_of message ]} ] true
      _router in
  let answer := intent.classify_intent json_loads world message _router in
  (answer = "chat" ∨ answer = "search" ∨ answer = "deep_research") ∧
  (raised out ≠ None → answer = "chat") ∧
  ((∃ v, v ∈ yielded out ∧ ∀ s, v ≠ JStr s) → answer = "chat").
Proof.
  intros out answer. subst answer. unfold intent.classify_intent. fold out.
  split; [| split].
  - destruct (concat_chunks "" (yielded out)); [by left |].
    destruct (raised out); [by left |]. unfold intent.category_of.
    destruct (contains "deep_research" _); [by right; right |].
    destruct (contains "search" _); [by right; left | by left].
  - intros Hraised. destruct (concat_chunks "" (yielded out)); [done |].
    by destruct (raised out).
  - intros Hv. by destruct (concat_chunks_text _ "" Hv) as [e ->].
Qed.

Lemma classify_intent_defaults_witness :
  raised
    (llm.get_completion no_json flaky_world "gpt-3.5-turbo"
       [ {[ "role" := "user"; "content" := intent.prompt_of "find it" ]} ]
       true (one_local 0)) ≠ None ∧
  intent.classify_intent no_json flaky_world "find it" (one_local 0) = "chat".
Proof.
  assert (H : raised
    (llm.get_completion no_json flaky_world "gpt-3.5-turbo"
       [ {[ "role" := "user"; "content" := intent.prompt_of "find it" ]} ]
       true (one_local 0)) ≠ None) by discriminate.
  split; [exact H |].
  pose proof (classify_intent_defaults no_json flaky_world "find it"
                (one_local 0)) as T.
  cbv zeta in T. destruct T as (_ & Hraised & _). exact (Hraised H).
Defined.

(** ** Provider status *)

Lemma collect_up_objects (entries : list (list (string * json)))
    (up_providers : list json) :
  council.collect_up (JObj <$> entries) up_providers =
  inr (up_providers ++
       omap (λ m, if council.eq_str (default JNull (assoc "status" m)) "UP"
                  then Some (default JNull (assoc "name" m)) else None)
         entries).
Proof.
  revert up_providers.
  induction entries as [|m entries IH]; intros up_providers.
  { simpl. by rewrite app_nil_r. }
  cbn [fmap list_fmap council.collect_up omap list_omap get mbind exn_bind].
  change (list_fmap _ _ JObj entries) with (JObj <$> entries).
  destruct (council.eq_str _ "UP").
  - rewrite IH. by rewrite <- app_assoc.
  - apply IH.
Qed.

(** X18.  When the status file holds a list of objects,
    [get_available_providers] returns, in the order of the file, the [name]
    of each object whose [status] is the string [UP]: [None] for one
    without a name, and the empty list, not the fallback, when none is up. *)
Theorem up_providers_of_objects (entries : list (list (string * json))) :
  council.get_available_providers (Some (Some (JArr (JObj <$> entries)))) =
  omap (λ m, if council.eq_str (default JNull (assoc "status" m)) "UP"
             then Some (default JNull (assoc "name" m)) else None)
    entries.
Proof.
  unfold council.get_available_providers, council.iterate.
  cbn [mbind exn_bind]. by rewrite collect_up_objects.
Qed.

Lemma collect_up_malformed (before after : list json) (bad : json)
    (up_providers : list json) :
  (∀ m, bad ≠ JObj m) →
  ∃ e, council.collect_up (before ++ bad :: after) up_providers = inl e.
Proof.
  intros Hbad. revert up_providers.
  induction before as [|p before IH]; intros up_providers.
  - simpl. destruct bad; simpl; eauto. by destruct (Hbad members).
  - cbn [app council.collect_up].
    destruct p; cbn [get mbind exn_bind]; eauto.
    destruct (council.eq_str _ "UP"); apply IH.
Qed.

(** X19.  One entry of the status list that is not an object, wherever it
    stands, makes [get_available_providers] return the fallback pair, also
    when other entries are up; so does a status document that is a
    non-empty object instead of a list. *)
Theorem malformed_status_gives_fallback (before after : list json)
    (bad : json) (members : list (string * json)) :
  (∀ m, bad ≠ JObj m) →
  members ≠ [] →
  council.get_available_providers
    (Some (Some (JArr (before ++ bad :: after)))) = council.fallback ∧
  council.get_available_providers (Some (Some (JObj members))) =
    council.fallback.
Proof.
  intros Hbad Hne. unfold council.get_available_providers, council.iterate.
  cbn [mbind exn_bind]. split.
  - by destruct (collect_up_malformed before after bad [] Hbad) as [e ->].
  - by destruct members as [|[k v] members].
Qed.

Lemma malformed_status_gives_fallback_witness :
  (∀ m, JStr "Groq" ≠ JObj m) ∧
  [("providers", JArr [])] ≠ [] ∧
  council.get_available_providers
    (Some (Some (JArr ([JObj [("name", JStr "Cerebras");
                              ("status", JStr "UP")]]
                       ++ JStr "Groq" :: [])))) = council.fallback.
Proof.
  assert (H : ∀ m, JStr "Groq" ≠ JObj m) by discriminate.
  split; [exact H |]. split; [discriminate |].
  apply (malformed_status_gives_fallback
           [JObj [("name", JStr "Cerebras"); ("status", JStr "UP")]] []
           (JStr "Groq") [("providers", JArr [])] H).
  discriminate.
Defined.

(** ** Web search *)

(** X20.  [search_web] does not raise: a failing search gives no result,
    and a search that gives rows gives one result for each row, in the same
    order, with exactly the keys [title], [href] and [body], each holding
    the value of the row or the empty string when the row lacks it. *)
Theorem search_web_results
    (ddgs_text : string → nat → exn + list (gmap string string))
    (query : string) (max_results : nat) :
  let results := search.search_web ddgs_text query max_results in
  Forall (λ r : gmap string string,
            dom r = ({["title"]} ∪ {["href"]} ∪ {["body"]} : gset string))
    results ∧
  (∀ e, ddgs_text query max_results = inl e → results = []) ∧
  (∀ rows, ddgs_text query max_results = inr rows →
     length results = length rows ∧
     ∀ i row, rows !! i = Some row →
       ∃ r : gmap string string, results !! i = Some r ∧
         r !! "title" = Some (default "" (row !! "title")) ∧
         r !! "href" = Some (default "" (row !! "href")) ∧
         r !! "body" = Some (default "" (row !! "body"))).
Proof.
  intros results. subst results. unfold search.search_web.
  destruct (ddgs_text query max_results) as [e | rows].
  - split; [constructor |]. split; [done |]. discriminate.
  - split; [| split; [discriminate |]].
    + apply Forall_fmap, Forall_true. intros row. simpl.
      rewrite !dom_insert_L, dom_empty_L. set_solver.
    + intros rows' [= <-]. split; [by rewrite length_fmap |].
      intros i row Hrow. eexists. rewrite list_lookup_fmap, Hrow.
      split; [done |]. by simplify_map_eq.
Qed.

Lemma search_web_results_witness :
  sample_ddgs "rocq" 5 =
    inr [ <["title" := "Rocq"]> (<["href" := "https://rocq-prover.org"]> ∅) ] ∧
  length (search.search_web sample_ddgs "rocq" 5) = 1 ∧
  ∃ r : gmap string string,
    search.search_web sample_ddgs "rocq" 5 !! 0 = Some r ∧
    r !! "title" = Some "Rocq" ∧ r !! "body" = Some "".
Proof.
  split; [reflexivity |].
  pose proof (search_web_results sample_ddgs "rocq" 5) as T.
  cbv zeta in T. destruct T as (_ & _ & Hrows).
  destruct (Hrows _ eq_refl) as [Hlen Hrow].
  split; [exact Hlen |].
  destruct (Hrow 0 _ eq_refl) as (r & Hr & Htitle & _ & Hbody).
  exists r. split; [exact Hr |]. split; [exact Htitle | exact Hbody].
Defined.

(** ** The chat completions endpoint *)

Lemma sse_not_done (members : list (string * json)) :
  openai_api.sse (JObj members) ≠ openai_api.done_event.
Proof. unfold openai_api.sse, openai_api.done_event. simpl. discriminate. Qed.

(** X21.  A request that does not ask for streaming is refused with status
    400 and the router is not used.  The event stream of a streaming request
    has one event for each fragment of the completion and two more, and its
    last event, and no other, is the [DONE] event: also when the completion
    raises, in which case the event before it carries the error text. *)
Theorem endpoint_events (json_loads : string → option json)
    (world : nat → externals) (uuid4 : string) (now : Z)
    (request : openai_api.ChatCompletionRequest) (_router : ProviderRouter) :
  let out :=
    llm.get_completion json_loads world (openai_api.model request)
      (openai_api.model_dump <$> openai_api.messages request) true _router in
  let answer :=
    openai_api.chat_completions json_loads world uuid4 now request _router in
  (openai_api.stream request = false →
   answer =
     (openai_api.JSONResponse 400
        (JObj [("error",
                JStr "Only streaming is supported in this version")]),
      _router)) ∧
  (openai_api.stream request = true →
   ∃ events,
     answer =
       (openai_api.StreamingResponse events "text/event-stream", after out) ∧
     length events = length (yielded out) + 2 ∧
     (∀ k, events !! k = Some openai_api.done_event ↔
           k = length (yielded out) + 1) ∧
     (∀ e, raised out = Some e →
           events !! length (yielded out) =
             Some (openai_api.sse (JObj [("error", JStr (exn_str e))])))).
Proof.
  intros out answer. subst answer. unfold openai_api.chat_completions.
  split; [by intros -> |]. intros ->. cbn [negb].
  unfold openai_api.event_generator. fold out.
  eexists. split; [reflexivity |].
  assert (Hlen : length (openai_api.payloads uuid4 now request out) =
                 length (yielded out) + 1).
  { unfold openai_api.payloads. by rewrite length_app, length_fmap. }
  assert (Hobj : ∀ k data,
            openai_api.payloads uuid4 now request out !! k = Some data →
            ∃ members, data = JObj members).
  { intros k data. unfold openai_api.payloads.
    destruct (decide (k < length (yielded out))) as [Hk | Hk].
    - rewrite lookup_app_l by (by rewrite length_fmap).
      rewrite list_lookup_fmap. destruct (yielded out !! k); [| done].
      intros [= <-]. by eexists.
    - rewrite lookup_app_r by (rewrite length_fmap; lia).
      rewrite length_fmap.
      destruct (k - length (yielded out)) as [|j]; [| done].
      destruct (raised out); intros [= <-]; by eexists. }
  split; [| split].
  - rewrite length_app, length_fmap, Hlen. simpl. lia.
  - intros k. destruct (decide (k < length (yielded out) + 1)) as [Hk | Hk].
    + rewrite lookup_app_l by (rewrite length_fmap; lia).
      rewrite list_lookup_fmap. split; [| lia].
      destruct (openai_api.payloads uuid4 now request out !! k)
        as [data|] eqn:E; [| done].
      destruct (Hobj k data E) as [members ->].
      cbn [fmap option_fmap option_map].
      intros [= H]; try by apply sse_not_done in H.
    + rewrite lookup_app_r by (rewrite length_fmap; lia).
      rewrite length_fmap, Hlen.
      destruct (k - (length (yielded out) + 1)) as [|j] eqn:E.
      * split; [lia | done].
      * split; [done | lia].
  - intros e He. rewrite lookup_app_l by (rewrite length_fmap; lia).
    rewrite list_lookup_fmap. unfold openai_api.payloads.
    rewrite lookup_app_r by (by rewrite length_fmap).
    by rewrite length_fmap, Nat.sub_diag, He.
Qed.

Lemma endpoint_events_witness :
  (openai_api.stream (sample_request false) = false ∧
   openai_api.chat_completions no_json idle_world "0000" 0
     (sample_request false) two_mocks =
   (openai_api.JSONResponse 400
      (JObj [("error", JStr "Only streaming is supported in this version")]),
    two_mocks)) ∧
  (openai_api.stream (sample_request true) = true ∧
   ∃ events,
     (openai_api.chat_completions no_json idle_world "0000" 0
        (sample_request true) two_mocks).1 =
       openai_api.StreamingResponse events "text/event-stream" ∧
     length events = 3 ∧
     (∀ k, events !! k = Some openai_api.done_event ↔ k = 2)).
Proof.
  split.
  - split; [reflexivity |].
    pose proof (endpoint_events no_json idle_world "0000" 0
                  (sample_request false) two_mocks) as T.
    cbv zeta in T. destruct T as [Hrefused _]. exact (Hrefused eq_refl).
  - split; [reflexivity |].
    pose proof (endpoint_events no_json idle_world "0000" 0
                  (sample_request true) two_mocks) as T.
    cbv zeta in T. destruct T as [_ Hstream].
    destruct (Hstream eq_refl) as (events & Hanswer & Hlen & Hdone & _).
    exists events. split; [by rewrite Hanswer |].
    split; [exact Hlen | exact Hdone].
Defined.

(** ** From the endpoint back to the remote provider *)

Section JsonInduction.

Variable P : json → Prop.
Hypothesis Hnull : P JNull.
Hypothesis Hbool : ∀ b, P (JBool b).
Hypothesis Hnum : ∀ n, P (JNum n).
Hypothesis Hstr : ∀ s, P (JStr s).
Hypothesis Harr : ∀ items, Forall P items → P (JArr items).
Hypothesis Hobj : ∀ members, Forall (λ kv, P kv.2) members → P (JObj members).

(** Induction on a value with the hypothesis for the values inside it. *)
Fixpoint json_nested_ind (v : json) : P v :=
  match v with
  | JNull => Hnull
  | JBool b => Hbool b
  | JNum n => Hnum n
  | JStr s => Hstr s
  | JArr items =>
      Harr items
        ((fix go (l : list json) : Forall P l :=
            match l with
            | [] => @List.Forall_nil _ P
            | x :: l' => @List.Forall_cons _ P x l' (json_nested_ind x) (go l')
            end) items)
  | JObj members =>
      Hobj members
        ((fix go (l : list (string * json)) : Forall (λ kv, P kv.2) l :=
            match l with
            | [] => @List.Forall_nil _ (λ kv, P kv.2)
            | kv :: l' =>
                @List.Forall_cons _ (λ kv, P kv.2) kv l'
                  (json_nested_ind kv.2) (go l')
            end) members)
  end.

End JsonInduction.

Local Abbreviation plain s :=
  (Forall (λ c, is_linebreak c = false) (list_ascii_of_string s)).

Lemma append_assoc (a b c : string) : (a +:+ b) +:+ c = a +:+ b +:+ c.
Proof.
  induction a as [|x a IH]; [done |].
  change (String x ((a +:+ b) +:+ c) = String x (a +:+ b +:+ c)).
  by rewrite IH.
Qed.

Lemma list_ascii_of_append (a b : string) :
  list_ascii_of_string (a +:+ b) =
  list_ascii_of_string a ++ list_ascii_of_string b.
Proof.
  induction a as [|x a IH]; [done |].
  change (x :: list_ascii_of_string (a +:+ b) =
          x :: (list_ascii_of_string a ++ list_ascii_of_string b)).
  by rewrite IH.
Qed.

Lemma plain_append (a b : string) : plain a → plain b → plain (a +:+ b).
Proof. intros Ha Hb. rewrite list_ascii_of_append. by apply Forall_app. Qed.

Lemma plain_join (sep : string) (parts : list string) :
  plain sep → Forall (λ p, plain p) parts → plain (join sep parts).
Proof.
  intros Hsep Hparts. induction Hparts as [|p parts Hp Hparts IH].
  { constructor. }
  destruct parts as [|q parts]; [done |].
  change (join sep (p :: q :: parts)) with (p +:+ sep +:+ join sep (q :: parts)).
  by repeat apply plain_append.
Qed.

Lemma hex_digit_plain (k : nat) : k < 16 → is_linebreak (hex_digit k) = false.
Proof.
  intros Hk. do 16 (destruct k as [|k]; [reflexivity |]). lia.
Qed.

Lemma dumps_char_plain (c : ascii) : plain (dumps_char c).
Proof.
  unfold dumps_char.
  repeat case_bool_decide; try (by repeat constructor).
  - repeat constructor. unfold is_linebreak.
    apply bool_decide_eq_false_2. lia.
  - repeat constructor; apply hex_digit_plain.
    + apply Nat.Div0.div_lt_upper_bound.
      pose proof (nat_ascii_bounded c). lia.
    + apply Nat.mod_upper_bound. lia.
Qed.

Lemma dumps_str_plain (s : string) : plain (dumps_str s).
Proof.
  unfold dumps_str. apply plain_append; [by repeat constructor |].
  apply plain_append; [| by repeat constructor].
  induction s as [|c s IH]; [constructor |].
  simpl. apply plain_append; [apply dumps_char_plain | done].
Qed.

Lemma string_of_uint_plain (d : Decimal.uint) :
  plain (NilEmpty.string_of_uint d).
Proof. induction d; simpl; by repeat constructor. Qed.

(** The output of [json.dumps] has no line break. *)
Lemma dumps_plain (v : json) : plain (dumps v).
Proof.
  induction v as [| b | n | s | items IH | members IH] using json_nested_ind.
  - by repeat constructor.
  - destruct b; by repeat constructor.
  - simpl. destruct (Z.to_int n); simpl.
    + apply string_of_uint_plain.
    + constructor; [reflexivity | apply string_of_uint_plain].
  - apply dumps_str_plain.
  - change (dumps (JArr items))
      with ("[" +:+ join ", " (dumps <$> items) +:+ "]").
    apply plain_append; [by repeat constructor |].
    apply plain_append; [| by repeat constructor].
    apply plain_join; [by repeat constructor |]. by apply Forall_fmap.
  - change (dumps (JObj members))
      with ("{" +:+ join ", " ((λ '(k, w), dumps_str k +:+ ": " +:+ dumps w)
                                 <$> members) +:+ "}").
    apply plain_append; [by repeat constructor |].
    apply plain_append; [| by repeat constructor].
    apply plain_join; [by repeat constructor |].
    apply Forall_fmap. eapply Forall_impl; [exact IH |].
    intros [k w] Hw. cbn [snd] in Hw.
    change (plain (dumps_str k +:+ ": " +:+ dumps w)).
    apply plain_append; [apply dumps_str_plain |].
    apply plain_append; [by repeat constructor | done].
Qed.

Lemma splitlines_from_plain (text : string) (line rest : string) :
  plain text →
  splitlines_from line (text +:+ rest) = splitlines_from (line +:+ text) rest.
Proof.
  revert line. induction text as [|c text IH]; intros line Hplain.
  { change ("" +:+ rest) with rest.
    replace (line +:+ "") with line; [done |].
    clear. induction line as [|x line IH]; [done |].
    change (String x line = String x (line +:+ "")). by rewrite <- IH. }
  apply Forall_cons in Hplain as [Hc Htext].
  change (String c text +:+ rest) with (String c (text +:+ rest)).
  cbn [splitlines_from]. rewrite Hc, IH by done.
  by rewrite append_assoc.
Qed.

Lemma splitlines_from_nl (line rest : string) :
  splitlines_from line (nl +:+ rest) = line :: splitlines_from "" rest.
Proof. reflexivity. Qed.

(** The lines of a body made of events [data: payload] that each end with
    two line feeds: every event gives its text and an empty line. *)
Lemma lines_of_sse (texts : list string) :
  Forall (λ t, plain t) texts →
  lines_of_events ((λ t, "data: " +:+ t +:+ nl +:+ nl) <$> texts) =
  texts ≫= (λ t, ["data: " +:+ t; ""]).
Proof.
  unfold lines_of_events, splitlines. intros Hall.
  induction Hall as [|t texts Ht Hall IH]; [done |].
  cbn [fmap list_fmap foldr mbind list_bind app].
  change (list_fmap _ _ ?f texts) with (f <$> texts).
  change (mbind ?f texts) with (texts ≫= f) in IH.
  rewrite <- IH.
  rewrite !append_assoc.
  rewrite <- (append_assoc "data: " t).
  rewrite splitlines_from_plain.
  - by rewrite !splitlines_from_nl.
  - apply plain_append; [by repeat constructor | done].
Qed.

Lemma rev_app_acc (s acc : string) :
  String.rev_app s acc = String.rev_app s "" +:+ acc.
Proof.
  revert acc. induction s as [|c s IH]; intros acc; [done |].
  cbn [String.rev_app]. rewrite IH, (IH (String c "")).
  by rewrite append_assoc.
Qed.

Lemma lstrip_keeps_last (u : string) (c : ascii) :
  isspace c = false →
  ∃ u', lstrip (u +:+ String c "") = u' +:+ String c "".
Proof.
  intros Hc. induction u as [|x u IH].
  - exists "". simpl. by rewrite Hc.
  - change (String x u +:+ String c "") with (String x (u +:+ String c "")).
    cbn [lstrip]. destruct (isspace x); [done |].
    by exists (String x u).
Qed.

(** [strip] keeps a first character that is no white space. *)
Lemma strip_keeps_first (c : ascii) (rest : string) :
  isspace c = false → ∃ t, strip (String c rest) = String c t.
Proof.
  intros Hc. unfold strip. cbn [lstrip]. rewrite Hc.
  unfold String.rev at 2. cbn [String.rev_app]. rewrite rev_app_acc.
  destruct (lstrip_keeps_last (String.rev_app rest "") c Hc) as [u' ->].
  unfold String.rev. rewrite rev_app_append. cbn [String.rev_app].
  by eexists.
Qed.

Lemma strip_object_not_done (members : list (string * json)) :
  strip (dumps (JObj members)) ≠ "[DONE]".
Proof.
  change (dumps (JObj members))
    with (String "{" (join ", " ((λ '(k, w), dumps_str k +:+ ": " +:+ dumps w)
                                   <$> members) +:+ "}")).
  destruct (strip_keeps_first "{" (join ", " ((λ '(k, w), dumps_str k +:+ ": " +:+ dumps w)
                                   <$> members) +:+ "}")) as [t ->];
    [reflexivity | discriminate].
Qed.

Section RoundTrip.

Context (json_loads : string → option json).

Local Abbreviation read_lines := (OpenAIProvider.read_lines json_loads).
Local Abbreviation event_lines texts :=
  (texts ≫= (λ t : string, ["data: " +:+ t; ""])).

(** The line of an event of the endpoint that carries a chunk gives the
    chunk back when the chunk is true, and nothing when it is not. *)
Lemma chunk_event_read (req_id model : string) (created : Z)
    (chunk finish_reason : json) (rest : list string)
    (end_fault : option exn) :
  let data :=
    openai_api.chunk_data req_id created model
      (JObj [("content", chunk)]) finish_reason in
  json_loads (dumps data) = Some data →
  read_lines (("data: " +:+ dumps data) :: "" :: rest) end_fault =
  if truthy chunk then yield_then chunk (read_lines rest end_fault)
  else read_lines rest end_fault.
Proof.
  intros data Hload.
  pose proof (strip_object_not_done
                [("id", JStr req_id); ("object", JStr "chat.completion.chunk");
                 ("created", JNum created); ("model", JStr model);
                 ("choices",
                  JArr [JObj [("index", JNum 0);
                              ("delta", JObj [("content", chunk)]);
                              ("finish_reason", finish_reason)]])]) as Hnot.
  change (JObj _) with data in Hnot.
  generalize dependent (dumps data). intros text Hload Hnot.
  cbn [OpenAIProvider.read_lines].
  change (startswith ("data: " +:+ text) "data: ")
    with (String.prefix "" text).
  change (slice_from 6 ("data: " +:+ text)) with text.
  rewrite (proj2 (String.eqb_neq _ _) Hnot).
  unfold OpenAIProvider.parse_event. rewrite Hload.
  assert (Hpre : String.prefix "" text = true) by (by destruct text).
  rewrite Hpre. subst data. simpl. by destruct (truthy chunk).
Qed.

Lemma chunk_events_read (req_id model : string) (created : Z)
    (cs : list json) (texts : list string) (end_fault : option exn) :
  let data_of := λ chunk,
    openai_api.chunk_data req_id created model
      (JObj [("content", chunk)]) JNull in
  (∀ c, c ∈ cs → json_loads (dumps (data_of c)) = Some (data_of c)) →
  read_lines (event_lines ((dumps <$> (data_of <$> cs)) ++ texts)) end_fault =
  {| chunks := filter (λ v, truthy v = true) cs
               ++ chunks (read_lines (event_lines texts) end_fault);
     fault := fault (read_lines (event_lines texts) end_fault) |}.
Proof.
  intros data_of Hloads.
  induction cs as [|c cs IH].
  { simpl app. by destruct (read_lines _ _). }
  cbn [fmap list_fmap app mbind list_bind].
  change (list_fmap _ _ ?f ?l) with (f <$> l).
  change (list_bind _ _ ?f ?l) with (l ≫= f).
  rewrite (chunk_event_read req_id model created c JNull)
    by (apply Hloads, list_elem_of_here).
  rewrite IH by (intros c' Hc'; by apply Hloads, list_elem_of_further).
  destruct (truthy c) eqn:E.
  - by rewrite filter_cons_True by done.
  - by rewrite filter_cons_False by (rewrite E; discriminate).
Qed.

End RoundTrip.

(** X22.  The events of the endpoint, read back by the remote provider as
    the lines of a response body, give exactly the fragments the completion
    yielded that are true in the sense of [if content:], in order, and a
    normal end: a fragment that is empty is dropped by the reader, the
    closing event and the empty lines between the events are skipped and
    the [DONE] event ends the stream.  This holds also when the completion
    raised, so the error of the gateway is not an error for a provider that
    reads it; and whatever way the connection ends after the [DONE]
    event. *)
Theorem endpoint_read_by_remote_provider (json_loads : string → option json)
    (world : nat → externals) (uuid4 : string) (now : Z)
    (request : openai_api.ChatCompletionRequest) (_router : ProviderRouter)
    (end_fault : option exn) :
  let out :=
    llm.get_completion json_loads world (openai_api.model request)
      (openai_api.model_dump <$> openai_api.messages request) true _router in
  let events :=
    (openai_api.event_generator json_loads world uuid4 now request
       _router).1 in
  (∀ data, data ∈ openai_api.payloads uuid4 now request out →
           json_loads (dumps data) = Some data) →
  OpenAIProvider.read_lines json_loads (lines_of_events events) end_fault =
  {| chunks := filter (λ v, truthy v = true) (yielded out); fault := None |}.
Proof.
  intros out events Hloads. subst events.
  unfold openai_api.event_generator. fold out. cbn [fst].
  set (ps := openai_api.payloads uuid4 now request out) in *.
  change ((openai_api.sse <$> ps) ++ [openai_api.done_event])
    with ((openai_api.sse <$> ps)
          ++ ((λ t, "data: " +:+ t +:+ nl +:+ nl) <$> ["[DONE]"])).
  replace (openai_api.sse <$> ps)
    with ((λ t, "data: " +:+ t +:+ nl +:+ nl) <$> (dumps <$> ps))
    by (by rewrite <- list_fmap_compose).
  rewrite <- fmap_app, lines_of_sse.
  2:{ apply Forall_app. split.
      - apply Forall_fmap, Forall_true. intros v. apply dumps_plain.
      - by repeat constructor. }
  subst ps. unfold openai_api.payloads in *. rewrite fmap_app, <- app_assoc.
  rewrite chunk_events_read.
  - assert (Hend : OpenAIProvider.read_lines json_loads
        (([dumps
             match raised out with
             | Some e => JObj [("error", JStr (exn_str e))]
             | None =>
                 openai_api.chunk_data ("chatcmpl-" +:+ uuid4) now
                   (openai_api.model request) (JObj []) (JStr "stop")
             end] ++ ["[DONE]"]) ≫= (λ t, ["data: " +:+ t; ""])) end_fault =
        finished).
    { assert (Hlast : json_loads
          (dumps match raised out with
                 | Some e => JObj [("error", JStr (exn_str e))]
                 | None =>
                     openai_api.chunk_data ("chatcmpl-" +:+ uuid4) now
                       (openai_api.model request) (JObj []) (JStr "stop")
                 end) =
          Some match raised out with
               | Some e => JObj [("error", JStr (exn_str e))]
               | None =>
                   openai_api.chunk_data ("chatcmpl-" +:+ uuid4) now
                     (openai_api.model request) (JObj []) (JStr "stop")
               end).
      { apply Hloads. apply elem_of_app. right. apply list_elem_of_here. }
      cbn [app mbind list_bind].
      destruct (raised out) as [e|].
      - erewrite payload_without_content;
          [reflexivity | exact Hlast | apply strip_object_not_done | by left].
      - erewrite payload_without_content;
          [reflexivity | exact Hlast | apply strip_object_not_done |].
        right. eexists _, _. split; [reflexivity |]. right.
        eexists. split; [reflexivity |]. by left. }
    cbn [fmap list_fmap]. rewrite Hend. simpl. by rewrite app_nil_r.
  - intros c Hc. apply Hloads. apply elem_of_app. left.
    apply list_elem_of_fmap. by exists c.
Qed.

Lemma endpoint_read_by_remote_provider_witness :
  ((∀ data,
      data ∈ openai_api.payloads "0000" 0 (sample_request true)
               (llm.get_completion (echo_json_loads sample_payloads)
                  idle_world "test-model"
                  (openai_api.model_dump
                     <$> openai_api.messages (sample_request true))
                  true two_mocks) →
      echo_json_loads sample_payloads (dumps data) = Some data) ∧
   OpenAIProvider.read_lines (echo_json_loads sample_payloads)
     (lines_of_events
        (openai_api.event_generator (echo_json_loads sample_payloads)
           idle_world "0000" 0 (sample_request true) two_mocks).1)
     (Some (Exn "ReadError" "connection reset")) =
   {| chunks := [JStr "Mock Response"]; fault := None |}) ∧
  ((∀ data,
      data ∈ openai_api.payloads "0000" 0 (sample_request true)
               (llm.get_completion (echo_json_loads odd_payloads)
                  odd_world "test-model"
                  (openai_api.model_dump
                     <$> openai_api.messages (sample_request true))
                  true (one_local 0)) →
      echo_json_loads odd_payloads (dumps data) = Some data) ∧
   yielded (llm.get_completion (echo_json_loads odd_payloads) odd_world
              "test-model"
              (openai_api.model_dump
                 <$> openai_api.messages (sample_request true))
              true (one_local 0)) = [JStr EmptyString; JStr "Hi"] ∧
   OpenAIProvider.read_lines (echo_json_loads odd_payloads)
     (lines_of_events
        (openai_api.event_generator (echo_json_loads odd_payloads)
           odd_world "0000" 0 (sample_request true) (one_local 0)).1)
     None =
   {| chunks := [JStr "Hi"]; fault := None |}).
Proof.
  split.
  - assert (H : ∀ data,
       data ∈ openai_api.payloads "0000" 0 (sample_request true)
                (llm.get_completion (echo_json_loads sample_payloads)
                   idle_world "test-model"
                   (openai_api.model_dump
                      <$> openai_api.messages (sample_request true))
                   true two_mocks) →
       echo_json_loads sample_payloads (dumps data) = Some data).
    { intros data Hin. apply list_elem_of_In in Hin.
      destruct Hin as [<- | [<- | []]]; vm_compute; reflexivity. }
    split; [exact H |].
    apply (endpoint_read_by_remote_provider (echo_json_loads sample_payloads)
             idle_world "0000" 0 (sample_request true) two_mocks
             (Some (Exn "ReadError" "connection reset")) H).
  - assert (H : ∀ data,
       data ∈ openai_api.payloads "0000" 0 (sample_request true)
                (llm.get_completion (echo_json_loads odd_payloads)
                   odd_world "test-model"
                   (openai_api.model_dump
                      <$> openai_api.messages (sample_request true))
                   true (one_local 0)) →
       echo_json_loads odd_payloads (dumps data) = Some data).
    { intros data Hin. apply list_elem_of_In in Hin.
      destruct Hin as [<- | [<- | [<- | []]]]; vm_compute; reflexivity. }
    split; [exact H |]. split; [reflexivity |].
    apply (endpoint_read_by_remote_provider (echo_json_loads odd_payloads)
             odd_world "0000" 0 (sample_request true) (one_local 0)
             None H).
Defined.
